(** * MCPConnector: a shallow embedding of [utilities/mcp/mcp_connect.py]

    The module resolves a list of MCP server descriptors (explicit list,
    or a JSON/YAML config file), builds one toolset per descriptor, asks
    each for its tools under a timeout, and caches the merged list.

    Python values are modelled by [pyval]; list objects that the
    connector creates, stores or hands out live in a heap indexed by
    addresses, so that aliasing and copying are visible; exceptions are
    an explicit result type; the external toolkit and the host
    environment are records of oracles. A coroutine is run to its end
    as one task: [await] is the call that returns the awaited result or
    raises. *)

From Stdlib Require Import ZArith String Ascii SpecFloat.
From stdpp Require Import base option list gmap strings.

Local Open Scope string_scope.
Set Warnings "-register-all".

(** ** Python values *)

(** The values that [json.loads] / [yaml.safe_load] produce, plus opaque
    toolkit objects (toolsets and tool handles), which the connector
    never inspects. *)
Inductive pyval : Type :=
| PNone
| PBool (b : bool)
| PInt (z : Z)
| PFloat (f : spec_float)
| PStr (s : string)
| PList (items : list pyval)
| PDict (entries : list (pyval * pyval))
| PObj (cls : string) (id : nat).

(** Python truthiness, as used by [or] and [if]. *)
Definition truthy (v : pyval) : bool :=
  match v with
  | PNone => false
  | PBool b => b
  | PInt z => negb (Z.eqb z 0)
  | PFloat (S754_zero _) => false
  | PFloat _ => true
  | PStr s => negb (String.eqb s EmptyString)
  | PList l => match l with [] => false | _ => true end
  | PDict d => match d with [] => false | _ => true end
  | PObj _ _ => true
  end.

(** [a or b]. *)
Definition py_or (a b : pyval) : pyval := if truthy a then a else b.

(** [type(v).__name__]. *)
Definition type_name (v : pyval) : string :=
  match v with
  | PNone => "NoneType"
  | PBool _ => "bool"
  | PInt _ => "int"
  | PFloat _ => "float"
  | PStr _ => "str"
  | PList _ => "list"
  | PDict _ => "dict"
  | PObj cls _ => cls
  end.

(** [d.get(key, default)] for a string key: only a [str] key with the
    same characters compares equal to it. *)
Fixpoint dict_get (d : list (pyval * pyval)) (key : string) (default : pyval) : pyval :=
  match d with
  | [] => default
  | (PStr k, v) :: rest => if String.eqb k key then v else dict_get rest key default
  | _ :: rest => dict_get rest key default
  end.

Definition is_dict (v : pyval) : bool :=
  match v with PDict _ => true | _ => false end.

(** ** Exceptions *)

(** Instances of [Exception], split the way the handlers of
    [_load_all_tools] tell them apart; each constructor carries what a
    handler reads: [str(e)], and the type name for the generic one.
    What derives from [BaseException] only ([KeyboardInterrupt], a
    cancelled task, [SystemExit]) is not among them: a [Runtime] raises
    instances of [Exception], and the calls that end with such a signal
    are added in [Interruptible]. *)
Inductive exn : Type :=
| FileNotFoundError (msg : string)
| HttpxConnectError (msg : string)
| HttpxTimeoutException (msg : string)
| AsyncioTimeoutError (msg : string)
| OtherException (cls : string) (msg : string).

Definition exn_str (e : exn) : string :=
  match e with
  | FileNotFoundError m | HttpxConnectError m | HttpxTimeoutException m
  | AsyncioTimeoutError m | OtherException _ m => m
  end.

Definition RuntimeError := OtherException "RuntimeError".
Definition ValueError := OtherException "ValueError".
Definition TypeError := OtherException "TypeError".
Definition AttributeError := OtherException "AttributeError".
Definition NotImplementedError := OtherException "NotImplementedError".

Inductive Res (A : Type) : Type :=
| Ok (a : A)
| Raise (e : exn).
Arguments Ok {A} a.
Arguments Raise {A} e.

Definition res_bind {A B} (r : Res A) (k : A -> Res B) : Res B :=
  match r with Ok a => k a | Raise e => Raise e end.

(** ** Paths *)

(** A [pathlib.Path] is kept as the string it prints as; the text of
    an environment variable is taken as already in that form, so that
    [Path(text)] prints as [text]. *)
Definition Path := string.

Fixpoint last_component (acc : string) (p : string) : string :=
  match p with
  | EmptyString => acc
  | String c rest =>
      if Ascii.eqb c "/" then last_component EmptyString rest
      else last_component (acc +:+ String c EmptyString) rest
  end.

(** The part of [name] from its last dot on, when that dot is neither
    the first nor the last character. *)
Fixpoint rfind_dot (name : string) (i : nat) (best : option nat) : option nat :=
  match name with
  | EmptyString => best
  | String c rest =>
      rfind_dot rest (S i) (if Ascii.eqb c "." then Some i else best)
  end.

Fixpoint drop_chars (n : nat) (s : string) : string :=
  match n, s with
  | O, _ => s
  | S n', String _ rest => drop_chars n' rest
  | S _, EmptyString => EmptyString
  end.

(** [path.suffix] *)
Definition suffix (p : Path) : string :=
  let name := last_component EmptyString p in
  match rfind_dot name 0 None with
  | Some i =>
      if andb (Nat.ltb 0 i) (Nat.ltb i (String.length name - 1))
      then drop_chars i name else EmptyString
  | None => EmptyString
  end.

Definition lower_ascii (c : ascii) : ascii :=
  let n := nat_of_ascii c in
  if andb (Nat.leb 65 n) (Nat.leb n 90) then ascii_of_nat (n + 32) else c.

(** [str.lower] on the ASCII letters; no other character lowers to a
    letter of [".yaml"] or [".yml"]. *)
Fixpoint lower (s : string) : string :=
  match s with
  | EmptyString => EmptyString
  | String c rest => String (lower_ascii c) (lower rest)
  end.

(** [a / b] for a root without a trailing separator. *)
Definition joinpath (a : Path) (b : string) : Path := a +:+ "/" +:+ b.

(** ** The host environment of config resolution *)

(** [path_exists p] is the answer of [p.exists()]: the test is taken to
    answer, for every path that the code asks about. *)

Record HostEnv : Type := {
  getenv : string -> option string;
  repo_root : Path;
  path_exists : Path -> bool;
  read_text : Path -> Res string;
  (** [import yaml]: the module's [safe_load], or the import error. *)
  import_yaml : Res (string -> Res pyval);
  json_loads : string -> Res pyval;
}.

Definition _repo_root (env : HostEnv) : Path := repo_root env.

Definition _load_servers_from_file (env : HostEnv) (path : Path) : Res (list pyval) :=
  if negb (path_exists env path) then
    Raise (FileNotFoundError ("MCP servers config not found: " +:+ path))
  else
    res_bind
      (if existsb (String.eqb (lower (suffix path))) [".yaml"; ".yml"] then
         match import_yaml env with
         | Raise e =>
             Raise (RuntimeError
               ("YAML config requested but PyYAML is not installed. "
                +:+ "Install pyyaml or use JSON. (" +:+ exn_str e +:+ ")"))
         | Ok safe_load => res_bind (read_text env path) safe_load
         end
       else res_bind (read_text env path) (json_loads env))
      (fun data =>
         match data with
         | PDict d =>
             let servers :=
               py_or (py_or (dict_get d "servers" PNone) (dict_get d "mcpServers" PNone))
                     (dict_get d "mcp_servers" PNone) in
             match servers with
             | PNone => Raise (ValueError ("No 'servers' key found in " +:+ path))
             | PList l => Ok l
             | _ => Raise (TypeError ("'servers' must be a list in " +:+ path))
             end
         | PList l => Ok l
         | _ =>
             Raise (TypeError ("Unsupported config format in " +:+ path
                               +:+ ": expected dict or list"))
         end).

(** [os.getenv(a) or os.getenv(b)]: an unset or empty variable is falsy. *)
Definition env_or (a b : option string) : option string :=
  match a with
  | Some s => if String.eqb s EmptyString then b else Some s
  | None => b
  end.

Definition candidates (root : Path) : list Path :=
  [ joinpath root "mcp_servers.json";
    joinpath root "mcp_servers.yaml";
    joinpath root "mcp_servers.yml";
    joinpath (joinpath root "configs") "mcp_servers.json";
    joinpath (joinpath root "configs") "mcp_servers.yaml";
    joinpath (joinpath root "configs") "mcp_servers.yml";
    joinpath (joinpath root "config") "mcp_servers.json";
    joinpath (joinpath root "config") "mcp_servers.yaml";
    joinpath (joinpath root "config") "mcp_servers.yml" ].

Definition _default_servers_config_path (env : HostEnv) : option Path :=
  match env_or (getenv env "MCP_SERVERS_PATH") (getenv env "MCP_CONFIG_PATH") with
  | Some (String c rest) => Some (String c rest)
  | _ => List.find (path_exists env) (candidates (_repo_root env))
  end.

(** ** The toolkit, the heap and the log *)

(** Addresses of list objects. *)
Definition loc := positive.

(** Calls that leave the connector, in the order they are made. *)
Inductive Event : Type :=
| BuildToolset (server_cfg : pyval)
| GetTools (toolset : pyval) (timeout : pyval).

(** What the connector does not implement. [_build_toolset] is the
    method [self._build_toolset(server_cfg)], whose body the integrator
    supplies (as shipped it raises [NotImplementedError], see
    [shipped_rt]);
    [wait_for_get_tools] is
    [await asyncio.wait_for(toolset.get_tools(), timeout=...)], which
    yields the tool handles or raises; [repr] is the interpreter's text
    for a value that is not a string. Each oracle sees the calls made so
    far, so the same descriptor may answer differently at each attempt. *)
Record Runtime : Type := {
  _build_toolset : list Event -> pyval -> Res pyval;
  wait_for_get_tools : list Event -> pyval -> pyval -> Res (list pyval);
  repr : pyval -> string;
}.

(** [str(v)], as f-strings and [%s] format it. *)
Definition py_str (rt : Runtime) (v : pyval) : string :=
  match v with
  | PStr s => s
  | PNone => "None"
  | PBool true => "True"
  | PBool false => "False"
  | _ => repr rt v
  end.

Inductive Level : Type := INFO | WARNING | ERROR.

Inductive LogArg : Type :=
| ArgStr (s : string)
| ArgInt (n : nat)
| ArgVal (v : pyval)
| ArgExn (e : exn).

(** One call of a [logger] method: format and arguments are kept apart,
    as [logging] does; [exc_info] is set by [logger.exception]. *)
Record LogRecord : Type := {
  level : Level;
  msg : string;
  args : list LogArg;
  exc_info : option exn;
}.

Record World : Type := {
  heap : gmap loc (list pyval);
  calls : list Event;
  log : list LogRecord;
}.

(** The attributes of one connector. *)
Record MCPConnector : Type := {
  timeout_s : pyval;
  _tools : loc;
  _loaded : bool;
  servers : loc;
}.

(** ** State and exceptions *)

Definition M (S A : Type) : Type := S -> Res A * S.

#[export] Instance M_ret {S} : MRet (M S) := fun A a s => (Ok a, s).
#[export] Instance M_bind {S} : MBind (M S) := fun A B k m s =>
  match m s with
  | (Ok a, s') => k a s'
  | (Raise e, s') => (Raise e, s')
  end.

Definition lift_res {S A} (r : Res A) : M S A := fun s => (r, s).

(** [try: body except Exception as e: handler e] *)
Definition try_except {S A} (body : M S A) (handler : exn -> M S A) : M S A :=
  fun s =>
    match body s with
    | (Ok a, s') => (Ok a, s')
    | (Raise e, s') => handler e s'
    end.

(** A method body runs on the receiver's attributes and the world. *)
Definition State : Type := MCPConnector * World.

Definition in_world {A} (m : M World A) : M State A :=
  fun s => let '(r, w) := m (snd s) in (r, (fst s, w)).

Definition get_self : M State MCPConnector := fun s => (Ok (fst s), s).

Definition set_tools (a : loc) : M State unit :=
  fun '(self, w) =>
    (Ok tt, ({| timeout_s := timeout_s self; _tools := a;
                _loaded := _loaded self; servers := servers self |}, w)).

Definition set_loaded (b : bool) : M State unit :=
  fun '(self, w) =>
    (Ok tt, ({| timeout_s := timeout_s self; _tools := _tools self;
                _loaded := b; servers := servers self |}, w)).

(** A new list object. *)
Definition alloc (items : list pyval) : M World loc :=
  fun w =>
    let a := fresh (dom (heap w)) in
    (Ok a, {| heap := <[a := items]> (heap w); calls := calls w; log := log w |}).

(** The current elements of a list object. *)
Definition read_list (a : loc) : M World (list pyval) :=
  fun w => (Ok (heap w !!! a), w).

(** [a.extend(more)] *)
Definition list_extend (a : loc) (more : list pyval) : M World unit :=
  fun w =>
    (Ok tt, {| heap := <[a := ((heap w !!! a) ++ more)%list]> (heap w);
               calls := calls w; log := log w |}).

Definition emit (r : LogRecord) : M World unit :=
  fun w => (Ok tt, {| heap := heap w; calls := calls w; log := (log w ++ [r])%list |}).

Definition logger_info (m : string) (a : list LogArg) : M World unit :=
  emit {| level := INFO; msg := m; args := a; exc_info := None |}.
Definition logger_warning (m : string) (a : list LogArg) : M World unit :=
  emit {| level := WARNING; msg := m; args := a; exc_info := None |}.
Definition logger_exception (m : string) (a : list LogArg) (e : exn) : M World unit :=
  emit {| level := ERROR; msg := m; args := a; exc_info := Some e |}.

Definition call_build_toolset (rt : Runtime) (server_cfg : pyval) : M World pyval :=
  fun w =>
    (_build_toolset rt (calls w) server_cfg,
     {| heap := heap w; calls := (calls w ++ [BuildToolset server_cfg])%list; log := log w |}).

Definition call_wait_for_get_tools (rt : Runtime) (toolset timeout : pyval)
  : M World (list pyval) :=
  fun w =>
    (wait_for_get_tools rt (calls w) toolset timeout,
     {| heap := heap w; calls := (calls w ++ [GetTools toolset timeout])%list; log := log w |}).

(** ** The connector *)

Definition nl : string := String (ascii_of_nat 10) EmptyString.

Definition __init__ (env : HostEnv) (servers_arg : option loc) (timeout : pyval)
  : M World MCPConnector :=
  tools ← alloc [];
  match servers_arg with
  | Some l =>
      mret {| timeout_s := timeout; _tools := tools; _loaded := false; servers := l |}
  | None =>
      match _default_servers_config_path env with
      | None =>
          logger_warning
            ("No MCP servers config found. Set MCP_SERVERS_PATH or add "
             +:+ "mcp_servers.json under repo root/configs/config.") [];;
          l ← alloc [];
          mret {| timeout_s := timeout; _tools := tools; _loaded := false; servers := l |}
      | Some cfg_path =>
          match _load_servers_from_file env cfg_path with
          | Ok ds =>
              l ← alloc ds;
              logger_info "Loaded MCP servers config from %s (%d servers)"
                          [ArgStr cfg_path; ArgInt (length ds)];;
              mret {| timeout_s := timeout; _tools := tools; _loaded := false;
                      servers := l |}
          | Raise e =>
              logger_exception "Failed to load MCP servers config from %s"
                               [ArgStr cfg_path] e;;
              l ← alloc [];
              mret {| timeout_s := timeout; _tools := tools; _loaded := false;
                      servers := l |}
          end
      end
  end.

(** [server_cfg.get("name", "<unnamed>")]: only a mapping has [get]. *)
Definition get_name (server_cfg : pyval) : Res pyval :=
  match server_cfg with
  | PDict d => Ok (dict_get d "name" (PStr "<unnamed>"))
  | v => Raise (AttributeError ("'" +:+ type_name v +:+ "' object has no attribute 'get'"))
  end.

(** The four [except] clauses, in their order: the reason appended to
    [failures] and the record logged. *)
Definition failure_reason (rt : Runtime) (name timeout : pyval) (e : exn) : string :=
  match e with
  | FileNotFoundError m =>
      py_str rt name +:+ ": command not found (" +:+ m +:+ ")"
  | HttpxConnectError m | HttpxTimeoutException m =>
      py_str rt name +:+ ": cannot connect (" +:+ m +:+ ")"
  | AsyncioTimeoutError _ =>
      py_str rt name +:+ ": get_tools() timed out after " +:+ py_str rt timeout +:+ "s"
  | OtherException c m =>
      py_str rt name +:+ ": unexpected error (" +:+ c +:+ ": " +:+ m +:+ ")"
  end.

Definition failure_log (name timeout : pyval) (e : exn) : LogRecord :=
  match e with
  | FileNotFoundError _ =>
      {| level := WARNING; msg := "Skipping MCP server '%s' (%s)";
         args := [ArgVal name; ArgExn e]; exc_info := None |}
  | HttpxConnectError _ | HttpxTimeoutException _ =>
      {| level := WARNING; msg := "Skipping MCP server '%s' (connect/timeout: %s)";
         args := [ArgVal name; ArgExn e]; exc_info := None |}
  | AsyncioTimeoutError _ =>
      {| level := WARNING; msg := "Skipping MCP server '%s' (timeout after %ss)";
         args := [ArgVal name; ArgVal timeout]; exc_info := None |}
  | OtherException _ _ =>
      {| level := ERROR; msg := "Skipping MCP server '%s' (unexpected error)";
         args := [ArgVal name]; exc_info := Some e |}
  end.

(** One iteration of the loop over [self.servers]; [failures] is the
    local list, returned with the new reason appended on a skip. *)
Definition load_one (rt : Runtime) (loaded_tools : loc) (failures : list string)
    (server_cfg : pyval) : M State (list string) :=
  name ← lift_res (get_name server_cfg);
  try_except
    (toolset ← in_world (call_build_toolset rt server_cfg);
     self ← get_self;
     tools ← in_world (call_wait_for_get_tools rt toolset (timeout_s self));
     in_world (list_extend loaded_tools tools);;
     in_world (logger_info "Loaded %d tools from MCP server '%s'"
                           [ArgInt (length tools); ArgVal name]);;
     mret failures)
    (fun e =>
       self ← get_self;
       in_world (emit (failure_log name (timeout_s self) e));;
       mret (failures ++ [failure_reason rt name (timeout_s self) e])%list).

Fixpoint load_loop (rt : Runtime) (loaded_tools : loc) (failures : list string)
    (cfgs : list pyval) : M State (list string) :=
  match cfgs with
  | [] => mret failures
  | server_cfg :: rest =>
      failures' ← load_one rt loaded_tools failures server_cfg;
      load_loop rt loaded_tools failures' rest
  end.

Definition _load_all_tools (rt : Runtime) : M State unit :=
  self ← get_self;
  if _loaded self then mret tt
  else
    loaded_tools ← in_world (alloc []);
    cfgs ← in_world (read_list (servers self));
    failures ← load_loop rt loaded_tools [] cfgs;
    set_tools loaded_tools;;
    set_loaded true;;
    match failures with
    | [] => mret tt
    | _ =>
        in_world (logger_warning ("MCP servers skipped (%d):" +:+ nl +:+ "- %s")
                    [ArgInt (length failures);
                     ArgStr (String.concat (nl +:+ "- ") failures)])
    end.

(** Returns the address of the new list made by [list(self._tools)]. *)
Definition get_tools (rt : Runtime) : M State loc :=
  _load_all_tools rt;;
  self ← get_self;
  items ← in_world (read_list (_tools self));
  in_world (alloc items).

(** ** What one pass over the descriptors observes *)

(** The fate of one descriptor inside the [try] block. *)
Inductive Outcome : Type :=
| Loaded (tools : list pyval)
| BuildFailed (e : exn)
| ListFailed (e : exn).

Definition outcome_error (o : Outcome) : option exn :=
  match o with
  | Loaded _ => None
  | BuildFailed e | ListFailed e => Some e
  end.

Definition outcome_tools (o : Outcome) : list pyval :=
  match o with Loaded tools => tools | _ => [] end.

(** The answers of the toolkit for [server_cfg] after the calls [h], and
    the calls this adds. *)
Definition attempt (rt : Runtime) (timeout : pyval) (h : list Event) (server_cfg : pyval)
  : Outcome * list Event :=
  match _build_toolset rt h server_cfg with
  | Raise e => (BuildFailed e, [BuildToolset server_cfg])
  | Ok toolset =>
      (match wait_for_get_tools rt (h ++ [BuildToolset server_cfg])%list toolset timeout with
       | Ok tools => Loaded tools
       | Raise e => ListFailed e
       end,
       [BuildToolset server_cfg; GetTools toolset timeout])
  end.

(** [Outcomes rt t h cfgs outs h']: starting after the calls [h], the
    mappings [cfgs], taken in order, meet the outcomes [outs] (paired
    with each descriptor's name) and leave the call history [h']. *)
Inductive Outcomes (rt : Runtime) (t : pyval)
  : list Event -> list pyval -> list (pyval * Outcome) -> list Event -> Prop :=
| Outcomes_nil h : Outcomes rt t h [] [] h
| Outcomes_cons h d cfgs o evs outs h' :
    attempt rt t h (PDict d) = (o, evs) ->
    Outcomes rt t (h ++ evs)%list cfgs outs h' ->
    Outcomes rt t h (PDict d :: cfgs)
             ((dict_get d "name" (PStr "<unnamed>"), o) :: outs) h'.

(** The merged handles, the reasons and the log records of a pass. *)
Definition merged (outs : list (pyval * Outcome)) : list pyval :=
  concat (map (fun no => outcome_tools (snd no)) outs).

Definition reason_of (rt : Runtime) (t : pyval) (no : pyval * Outcome) : list string :=
  match outcome_error (snd no) with
  | Some e => [failure_reason rt (fst no) t e]
  | None => []
  end.

Definition reasons (rt : Runtime) (t : pyval) (outs : list (pyval * Outcome)) : list string :=
  concat (map (reason_of rt t) outs).

Definition record_of (t : pyval) (no : pyval * Outcome) : LogRecord :=
  match snd no with
  | Loaded tools =>
      {| level := INFO; msg := "Loaded %d tools from MCP server '%s'";
         args := [ArgInt (length tools); ArgVal (fst no)]; exc_info := None |}
  | BuildFailed e | ListFailed e => failure_log (fst no) t e
  end.

Definition summary (failures : list string) : list LogRecord :=
  match failures with
  | [] => []
  | _ => [ {| level := WARNING;
              msg := "MCP servers skipped (%d):" +:+ nl +:+ "- %s";
              args := [ArgInt (length failures);
                       ArgStr (String.concat (nl +:+ "- ") failures)];
              exc_info := None |} ]
  end.

Definition is_build (ev : Event) : bool :=
  match ev with BuildToolset _ => true | GetTools _ _ => false end.

Definition is_list_tools (ev : Event) : bool :=
  match ev with BuildToolset _ => false | GetTools _ _ => true end.

(** How often the factory, resp. the list-tools call, occurs in [h]. *)
Definition builds (h : list Event) : nat := length (List.filter is_build h).
Definition listings (h : list Event) : nat := length (List.filter is_list_tools h).

Definition constructed (o : Outcome) : bool :=
  match o with BuildFailed _ => false | _ => true end.

(** The world once the list at [a] has been replaced by [items]. *)
Definition store (a : loc) (items : list pyval) (w : World) : World :=
  {| heap := <[a := items]> (heap w); calls := calls w; log := log w |}.

(** The attributes after a completed pass that built the list at [a]. *)
Definition loaded_at (self : MCPConnector) (a : loc) : MCPConnector :=
  {| timeout_s := timeout_s self; _tools := a; _loaded := true;
     servers := servers self |}.

(** ** The outcomes of a pass, computed *)

(** [name_of v] is the name under which a mapping is reported. *)
Definition name_of (server_cfg : pyval) : pyval :=
  match get_name server_cfg with Ok name => name | Raise _ => PNone end.

(** The executable reading of [Outcomes]: [None] as soon as a descriptor
    is not a mapping. *)
Fixpoint outcomes (rt : Runtime) (t : pyval) (h : list Event) (cfgs : list pyval)
  : option (list (pyval * Outcome) * list Event) :=
  match cfgs with
  | [] => Some ([], h)
  | server_cfg :: rest =>
      if is_dict server_cfg then
        let '(o, evs) := attempt rt t h server_cfg in
        match outcomes rt t (h ++ evs)%list rest with
        | Some (outs, h') => Some ((name_of server_cfg, o) :: outs, h')
        | None => None
        end
      else None
  end.

(** ** Later calls *)

Definition failed (o : Outcome) : bool :=
  match outcome_error o with Some _ => true | None => false end.

(** The state after [n] further calls of [get_tools], whose results the
    caller keeps or drops. *)
Fixpoint later_calls (rt : Runtime) (n : nat) (s : State) : State :=
  match n with
  | O => s
  | S k => later_calls rt k (snd (get_tools rt s))
  end.

(** The reading under which two calls of [get_tools] cost exactly one
    factory call and one list-tools call per descriptor. *)
Definition two_calls_invoke_each_once_per_descriptor
    (rt : Runtime) (self : MCPConnector) (w : World) : Prop :=
  exists r1 s1 r2 s2,
    get_tools rt (self, w) = (Ok r1, s1) /\
    get_tools rt s1 = (Ok r2, s2) /\
    builds (calls (snd s2)) = builds (calls w) + length (heap w !!! servers self) /\
    listings (calls (snd s2)) = listings (calls w) + length (heap w !!! servers self).

(** A connector whose pass is complete and whose cache is a live list. *)
Definition cached (s : State) : Prop :=
  _loaded (fst s) = true /\ is_Some (heap (snd s) !! _tools (fst s)).

(** ** Config faults *)

Definition is_list (v : pyval) : bool :=
  match v with PList _ => true | _ => false end.

Definition is_yaml (p : Path) : bool :=
  existsb (String.eqb (lower (suffix p))) [".yaml"; ".yml"].

(** The parser that [_load_servers_from_file] picks for [p]. *)
Definition config_parser (env : HostEnv) (p : Path) : Res (string -> Res pyval) :=
  if is_yaml p then import_yaml env else Ok (json_loads env).

(** The ways a selected config file can be unusable, each with the
    exception that [_load_servers_from_file] raises for it: the file is
    absent; it is YAML and PyYAML cannot be imported; its text does not
    parse; its top level is neither a mapping nor a list. *)
Inductive ConfigFault (env : HostEnv) (p : Path) : exn -> Prop :=
| Fault_absent :
    path_exists env p = false ->
    ConfigFault env p (FileNotFoundError ("MCP servers config not found: " +:+ p))
| Fault_yaml_unavailable e0 :
    path_exists env p = true ->
    is_yaml p = true ->
    import_yaml env = Raise e0 ->
    ConfigFault env p
      (RuntimeError ("YAML config requested but PyYAML is not installed. "
                     +:+ "Install pyyaml or use JSON. (" +:+ exn_str e0 +:+ ")"))
| Fault_unparseable parse text e :
    path_exists env p = true ->
    config_parser env p = Ok parse ->
    read_text env p = Ok text ->
    parse text = Raise e ->
    ConfigFault env p e
| Fault_shape parse text data :
    path_exists env p = true ->
    config_parser env p = Ok parse ->
    read_text env p = Ok text ->
    parse text = Ok data ->
    is_dict data = false ->
    is_list data = false ->
    ConfigFault env p
      (TypeError ("Unsupported config format in " +:+ p +:+ ": expected dict or list")).

(** The reading of the spec under which a config error ends the
    construction: whatever [_load_servers_from_file] raises on the
    resolved path is what the constructor raises. *)
Definition config_errors_reach_caller (env : HostEnv) (t : pyval) (w : World) : Prop :=
  forall p e,
    _default_servers_config_path env = Some p ->
    _load_servers_from_file env p = Raise e ->
    fst (__init__ env None t w) = Raise e.

(** The record that [logger.exception] leaves when the config cannot be
    loaded. *)
Definition config_failure_record (p : Path) (e : exn) : LogRecord :=
  {| level := ERROR; msg := "Failed to load MCP servers config from %s";
     args := [ArgStr p]; exc_info := Some e |}.

Definition no_config_record : LogRecord :=
  {| level := WARNING;
     msg := "No MCP servers config found. Set MCP_SERVERS_PATH or add "
            +:+ "mcp_servers.json under repo root/configs/config.";
     args := []; exc_info := None |}.

(** ** Sample inputs *)

(** A toolkit whose answers depend on the descriptor's name: [ghost] has
    no executable, [down] refuses the connection, [slow] exceeds the
    timeout, [odd] breaks in the toolkit; any other server lists two
    handles numbered by the length of the call history. *)
Definition last_built (h : list Event) : pyval :=
  match last h with
  | Some (BuildToolset server_cfg) => name_of server_cfg
  | _ => PNone
  end.

Definition name_is (name : pyval) (s : string) : bool :=
  match name with PStr n => String.eqb n s | _ => false end.

Definition demo_rt : Runtime := {|
  _build_toolset := fun h server_cfg =>
    if name_is (name_of server_cfg) "ghost"
    then Raise (FileNotFoundError "[Errno 2] No such file or directory: 'ghost-mcp'")
    else Ok (PObj "MCPToolset" (length h));
  wait_for_get_tools := fun h toolset timeout =>
    if name_is (last_built h) "down"
    then Raise (HttpxConnectError "All connection attempts failed")
    else if name_is (last_built h) "slow"
    then Raise (AsyncioTimeoutError EmptyString)
    else if name_is (last_built h) "odd"
    then Raise (OtherException "KeyError" "'tools'")
    else Ok [PObj "MCPTool" (length h); PObj "MCPTool" (S (length h))];
  repr := fun _ => "<object>";
|}.

(** The connector as shipped: [_build_toolset] is the placeholder that
    raises [NotImplementedError], so no toolset is ever asked. *)
Definition shipped_rt : Runtime := {|
  _build_toolset := fun _ _ => Raise (NotImplementedError EmptyString);
  wait_for_get_tools := fun _ _ _ => Ok [];
  repr := fun _ => "<object>";
|}.

Definition server (name : string) : pyval :=
  PDict [(PStr "name", PStr name); (PStr "url", PStr "http://localhost:8931/sse")].

(** [10.0] *)
Definition ten_seconds : pyval := PFloat (S754_finite false 5 1).

(** A connector that has not loaded yet: its descriptor list is the
    object at address 1, its empty cache the object at address 2. *)
Definition demo_self : MCPConnector :=
  {| timeout_s := ten_seconds; _tools := 2%positive; _loaded := false;
     servers := 1%positive |}.

Definition demo_world (cfgs : list pyval) : World :=
  {| heap := {[ 1%positive := cfgs; 2%positive := [] ]}; calls := []; log := [] |}.

(** Three servers, the second of which times out, and what a pass over
    them observes. *)
Definition mixed_servers : list pyval := [server "alpha"; server "slow"; server "beta"].

Definition mixed_outs : list (pyval * Outcome) :=
  [(PStr "alpha", Loaded [PObj "MCPTool" 1; PObj "MCPTool" 2]);
   (PStr "slow", ListFailed (AsyncioTimeoutError EmptyString));
   (PStr "beta", Loaded [PObj "MCPTool" 5; PObj "MCPTool" 6])].

Definition mixed_calls : list Event :=
  [BuildToolset (server "alpha"); GetTools (PObj "MCPToolset" 0) ten_seconds;
   BuildToolset (server "slow"); GetTools (PObj "MCPToolset" 2) ten_seconds;
   BuildToolset (server "beta"); GetTools (PObj "MCPToolset" 4) ten_seconds].

(** Three servers, the second of which has no executable: its toolset
    is never built. *)
Definition ghost_servers : list pyval := [server "alpha"; server "ghost"; server "beta"].

(** A descriptor list whose second entry is a string, not a mapping. *)
Definition malformed_servers : list pyval :=
  [server "alpha"; PStr "beta"; server "gamma"].

(** ** Sample hosts *)

Definition no_such_file (p : Path) : exn :=
  FileNotFoundError ("[Errno 2] No such file or directory: '" +:+ p +:+ "'").

Definition no_yaml_module : exn :=
  OtherException "ModuleNotFoundError" "No module named 'yaml'".

Definition json_error : exn :=
  OtherException "JSONDecodeError" "Expecting value: line 1 column 1 (char 0)".

(** No variable is set and no candidate file exists. *)
Definition bare_env : HostEnv := {|
  getenv := fun _ => None;
  repo_root := "/srv/app";
  path_exists := fun _ => false;
  read_text := fun p => Raise (no_such_file p);
  import_yaml := Raise no_yaml_module;
  json_loads := fun _ => Raise json_error;
|}.

(** [MCP_SERVERS_PATH] names a file that does not exist. *)
Definition missing_env : HostEnv := {|
  getenv := fun k => if String.eqb k "MCP_SERVERS_PATH"
                     then Some "/etc/mcp/servers.json" else None;
  repo_root := "/srv/app";
  path_exists := fun _ => false;
  read_text := fun p => Raise (no_such_file p);
  import_yaml := Raise no_yaml_module;
  json_loads := fun _ => Raise json_error;
|}.

(** [/srv/app/mcp_servers.json] exists and its text parses to [data]. *)
Definition file_env (data : pyval) : HostEnv := {|
  getenv := fun _ => None;
  repo_root := "/srv/app";
  path_exists := fun p => String.eqb p "/srv/app/mcp_servers.json";
  read_text := fun p =>
    if String.eqb p "/srv/app/mcp_servers.json" then Ok "<config text>"
    else Raise (no_such_file p);
  import_yaml := Raise no_yaml_module;
  json_loads := fun text =>
    if String.eqb text "<config text>" then Ok data else Raise json_error;
|}.

Definition empty_world : World := {| heap := ∅; calls := []; log := [] |}.

(** ** Further observations *)

(** The host [env] with another answer to [import yaml]. *)
Definition with_import_yaml (env : HostEnv) (y : Res (string -> Res pyval)) : HostEnv :=
  {| getenv := getenv env; repo_root := repo_root env; path_exists := path_exists env;
     read_text := read_text env; import_yaml := y; json_loads := json_loads env |}.

(** The host [env] with another [json.loads]. *)
Definition with_json_loads (env : HostEnv) (j : string -> Res pyval) : HostEnv :=
  {| getenv := getenv env; repo_root := repo_root env; path_exists := path_exists env;
     read_text := read_text env; import_yaml := import_yaml env; json_loads := j |}.

(** An environment variable that is unset or set to the empty string. *)
Definition unset_or_empty (v : option string) : bool :=
  match v with
  | None => true
  | Some s => String.eqb s EmptyString
  end.

(** The value that the chain of [or] over the three keys selects. *)
Definition selected_value (d : list (pyval * pyval)) : pyval :=
  py_or (py_or (dict_get d "servers" PNone) (dict_get d "mcpServers" PNone))
        (dict_get d "mcp_servers" PNone).

(** The record that [logger.info] leaves when the config is loaded. *)
Definition config_loaded_record (p : Path) (n : nat) : LogRecord :=
  {| level := INFO; msg := "Loaded MCP servers config from %s (%d servers)";
     args := [ArgStr p; ArgInt n]; exc_info := None |}.

(** The descriptors handed to the factory, in the order of the calls. *)
Definition built (h : list Event) : list pyval :=
  flat_map (fun ev => match ev with BuildToolset cfg => [cfg] | GetTools _ _ => [] end) h.

(** The timeouts handed to [wait_for], in the order of the calls. *)
Definition timeouts (h : list Event) : list pyval :=
  flat_map (fun ev => match ev with BuildToolset _ => [] | GetTools _ t => [t] end) h.

(** A config file in the repo root and one named by [MCP_SERVERS_PATH],
    which does not exist. *)
Definition shadowed_env : HostEnv := {|
  getenv := fun k => if String.eqb k "MCP_SERVERS_PATH"
                     then Some "/etc/mcp/servers.json" else None;
  repo_root := "/srv/app";
  path_exists := fun p => String.eqb p "/srv/app/mcp_servers.json";
  read_text := fun p =>
    if String.eqb p "/srv/app/mcp_servers.json" then Ok "<config text>"
    else Raise (no_such_file p);
  import_yaml := Raise no_yaml_module;
  json_loads := fun text =>
    if String.eqb text "<config text>" then Ok (PList [server "alpha"])
    else Raise json_error;
|}.

(** [MCP_SERVERS_PATH] is set but empty and [MCP_CONFIG_PATH] names a file. *)
Definition fallback_env : HostEnv := {|
  getenv := fun k => if String.eqb k "MCP_SERVERS_PATH" then Some EmptyString
                     else if String.eqb k "MCP_CONFIG_PATH" then Some "/etc/mcp.yaml"
                     else None;
  repo_root := "/srv/app";
  path_exists := fun _ => false;
  read_text := fun p => Raise (no_such_file p);
  import_yaml := Raise no_yaml_module;
  json_loads := fun _ => Raise json_error;
|}.

(** Only [configs/mcp_servers.yaml] and [config/mcp_servers.json] exist. *)
Definition nested_env : HostEnv := {|
  getenv := fun _ => None;
  repo_root := "/srv/app";
  path_exists := fun p => orb (String.eqb p "/srv/app/configs/mcp_servers.yaml")
                              (String.eqb p "/srv/app/config/mcp_servers.json");
  read_text := fun p => Raise (no_such_file p);
  import_yaml := Raise no_yaml_module;
  json_loads := fun _ => Raise json_error;
|}.

(** ** Exceptions that are not instances of [Exception] *)

(** [except Exception] does not catch what derives from [BaseException]
    only: a cancelled task, an interrupt, an exit. [Runtime] describes a
    toolkit whose calls return or raise an [Exception]; a [Toolkit] adds
    the calls at which such a signal is raised instead, and the
    connector is embedded once more over it, with the third way for a
    call to end. *)
Module Interruptible.

Inductive signal : Type :=
| CancelledError
| KeyboardInterrupt
| SystemExit
| GeneratorExit.

Inductive Reply (A : Type) : Type :=
| Returns (a : A)
| Raises (e : exn)
| Propagates (sg : signal).
Arguments Returns {A} a.
Arguments Raises {A} e.
Arguments Propagates {A} sg.

Definition of_res {A} (r : Res A) : Reply A :=
  match r with Ok a => Returns a | Raise e => Raises e end.

Definition MI (S A : Type) : Type := S -> Reply A * S.

#[export] Instance MI_ret {S} : MRet (MI S) := fun A a s => (Returns a, s).
#[export] Instance MI_bind {S} : MBind (MI S) := fun A B k m s =>
  match m s with
  | (Returns a, s') => k a s'
  | (Raises e, s') => (Raises e, s')
  | (Propagates sg, s') => (Propagates sg, s')
  end.

(** A computation that no signal can end. *)
Definition lift {S A} (m : M S A) : MI S A :=
  fun s => let '(r, s') := m s in (of_res r, s').

(** [try: body except Exception as e: handler e]: a signal passes. *)
Definition try_except {S A} (body : MI S A) (handler : exn -> MI S A) : MI S A :=
  fun s =>
    match body s with
    | (Raises e, s') => handler e s'
    | other => other
    end.

(** [handled] answers the calls that no signal ends; [signal_at_build]
    and [signal_at_listing] say, from the calls made so far and the
    arguments, whether the call to [self._build_toolset(server_cfg)],
    resp. the [await asyncio.wait_for(toolset.get_tools(), ...)], ends
    with a signal. *)
Record Toolkit : Type := {
  handled : Runtime;
  signal_at_build : list Event -> pyval -> option signal;
  signal_at_listing : list Event -> pyval -> pyval -> option signal;
}.

Definition call_build_toolset (tk : Toolkit) (server_cfg : pyval) : MI World pyval :=
  fun w =>
    (match signal_at_build tk (calls w) server_cfg with
     | Some sg => Propagates sg
     | None => of_res (_build_toolset (handled tk) (calls w) server_cfg)
     end,
     {| heap := heap w; calls := (calls w ++ [BuildToolset server_cfg])%list; log := log w |}).

Definition call_wait_for_get_tools (tk : Toolkit) (toolset timeout : pyval)
  : MI World (list pyval) :=
  fun w =>
    (match signal_at_listing tk (calls w) toolset timeout with
     | Some sg => Propagates sg
     | None => of_res (wait_for_get_tools (handled tk) (calls w) toolset timeout)
     end,
     {| heap := heap w; calls := (calls w ++ [GetTools toolset timeout])%list; log := log w |}).

Definition in_world {A} (m : MI World A) : MI State A :=
  fun s => let '(r, w) := m (snd s) in (r, (fst s, w)).

Definition load_one (tk : Toolkit) (loaded_tools : loc) (failures : list string)
    (server_cfg : pyval) : MI State (list string) :=
  name ← lift (lift_res (get_name server_cfg));
  try_except
    (toolset ← in_world (call_build_toolset tk server_cfg);
     self ← lift get_self;
     tools ← in_world (call_wait_for_get_tools tk toolset (timeout_s self));
     in_world (lift (list_extend loaded_tools tools));;
     in_world (lift (logger_info "Loaded %d tools from MCP server '%s'"
                                 [ArgInt (length tools); ArgVal name]));;
     mret failures)
    (fun e =>
       self ← lift get_self;
       in_world (lift (emit (failure_log name (timeout_s self) e)));;
       mret (failures ++ [failure_reason (handled tk) name (timeout_s self) e])%list).

Fixpoint load_loop (tk : Toolkit) (loaded_tools : loc) (failures : list string)
    (cfgs : list pyval) : MI State (list string) :=
  match cfgs with
  | [] => mret failures
  | server_cfg :: rest =>
      failures' ← load_one tk loaded_tools failures server_cfg;
      load_loop tk loaded_tools failures' rest
  end.

Definition _load_all_tools (tk : Toolkit) : MI State unit :=
  self ← lift get_self;
  if _loaded self then mret tt
  else
    loaded_tools ← in_world (lift (alloc []));
    cfgs ← in_world (lift (read_list (servers self)));
    failures ← load_loop tk loaded_tools [] cfgs;
    lift (set_tools loaded_tools);;
    lift (set_loaded true);;
    match failures with
    | [] => mret tt
    | _ =>
        in_world (lift (logger_warning ("MCP servers skipped (%d):" +:+ nl +:+ "- %s")
                          [ArgInt (length failures);
                           ArgStr (String.concat (nl +:+ "- ") failures)]))
    end.

Definition get_tools (tk : Toolkit) : MI State loc :=
  _load_all_tools tk;;
  self ← lift get_self;
  items ← in_world (lift (read_list (_tools self)));
  in_world (lift (alloc items)).

(** A toolkit none of whose calls ends with a signal: whatever it
    raises is an instance of [Exception]. *)
Definition quiet (tk : Toolkit) : Prop :=
  (forall h server_cfg, signal_at_build tk h server_cfg = None) /\
  (forall h toolset timeout, signal_at_listing tk h toolset timeout = None).

(** The reading under which a list of mappings cannot make [get_tools]
    end otherwise than by returning, whatever the toolkit raises. *)
Definition mappings_always_complete (tk : Toolkit) (self : MCPConnector) (w : World) : Prop :=
  forallb is_dict (heap w !!! servers self) = true ->
  exists r s', get_tools tk (self, w) = (Returns r, s').

End Interruptible.

(** A runtime as a toolkit that raises no signal. *)
Definition of_runtime (rt : Runtime) : Interruptible.Toolkit :=
  {| Interruptible.handled := rt;
     Interruptible.signal_at_build := fun _ _ => None;
     Interruptible.signal_at_listing := fun _ _ _ => None |}.

(** The sample toolkit, with the task cancelled while it awaits the
    tools of the server [slow]. *)
Definition cancelled_tk : Interruptible.Toolkit :=
  {| Interruptible.handled := demo_rt;
     Interruptible.signal_at_build := fun _ _ => None;
     Interruptible.signal_at_listing := fun h _ _ =>
       if name_is (last_built h) "slow" then Some Interruptible.CancelledError
       else None |}.

(** * Properties *)

(** ** One iteration and the loop *)

Lemma load_one_mapping rt a failures d self w cur o evs :
  heap w !! a = Some cur ->
  attempt rt (timeout_s self) (calls w) (PDict d) = (o, evs) ->
  let no := (dict_get d "name" (PStr "<unnamed>"), o) in
  load_one rt a failures (PDict d) (self, w) =
    (Ok (failures ++ reason_of rt (timeout_s self) no)%list,
     (self, {| heap := <[a := (cur ++ outcome_tools o)%list]> (heap w);
               calls := (calls w ++ evs)%list;
               log := (log w ++ [record_of (timeout_s self) no])%list |})).
Proof.
  intros Hcur Hatt no. subst no.
  unfold attempt in Hatt.
  unfold load_one, try_except, mbind, M_bind, mret, M_ret, lift_res, in_world,
    call_build_toolset, call_wait_for_get_tools, get_self, list_extend,
    logger_info, emit, reason_of, record_of; simpl.
  destruct (_build_toolset rt (calls w) (PDict d)) as [ts|e]; simpl.
  - destruct (wait_for_get_tools rt (calls w ++ [BuildToolset (PDict d)])%list ts
                (timeout_s self)) as [tools|e];
      injection Hatt as <- <-; simpl.
    + rewrite (lookup_total_correct _ _ _ Hcur), app_nil_r, <- app_assoc. reflexivity.
    + rewrite app_nil_r, (insert_id _ _ _ Hcur), <- app_assoc. reflexivity.
  - injection Hatt as <- <-; simpl.
    rewrite app_nil_r, (insert_id _ _ _ Hcur). reflexivity.
Qed.

Lemma load_one_not_mapping rt a failures v self w :
  is_dict v = false ->
  exists e, get_name v = Raise e /\
            load_one rt a failures v (self, w) = (Raise e, (self, w)).
Proof.
  intros Hv. destruct v; try discriminate Hv;
    (eexists; split; [reflexivity | reflexivity]).
Qed.

Lemma world_eta (w : World) :
  {| heap := heap w; calls := calls w; log := log w |} = w.
Proof. destruct w; reflexivity. Qed.

Lemma load_loop_outcomes rt t h cfgs outs h' :
  Outcomes rt t h cfgs outs h' ->
  forall a failures self w cur,
    timeout_s self = t -> calls w = h -> heap w !! a = Some cur ->
    load_loop rt a failures cfgs (self, w) =
      (Ok (failures ++ reasons rt t outs)%list,
       (self, {| heap := <[a := (cur ++ merged outs)%list]> (heap w);
                 calls := h';
                 log := (log w ++ map (record_of t) outs)%list |})).
Proof.
  induction 1 as [h | h d cfgs o evs outs h' Hatt Hrest IH];
    intros a failures self w cur Ht Hh Hcur.
  - simpl. unfold reasons, merged; simpl.
    rewrite !app_nil_r, (insert_id _ _ _ Hcur), <- Hh, world_eta. reflexivity.
  - subst t h. cbn [load_loop]. unfold mbind, M_bind.
    rewrite (load_one_mapping rt a failures d self w cur o evs Hcur Hatt).
    cbv zeta.
    erewrite IH; [ | reflexivity | reflexivity | apply lookup_insert_eq ].
    cbn [heap calls log]. rewrite insert_insert_eq.
    unfold reasons, merged. cbn [map concat snd].
    rewrite <- !app_assoc. reflexivity.
Qed.


Lemma Outcomes_total rt t cfgs :
  Forall (fun v => is_dict v = true) cfgs ->
  forall h, exists outs h', Outcomes rt t h cfgs outs h'.
Proof.
  induction 1 as [ | v cfgs Hv _ IH]; intros h.
  - exists [], h. constructor.
  - destruct v; try discriminate Hv.
    destruct (attempt rt t h (PDict entries)) as [o evs] eqn:Hatt.
    destruct (IH (h ++ evs)%list) as (outs & h' & Hrest).
    eexists _, h'. econstructor; eassumption.
Qed.

Lemma Outcomes_functional rt t h cfgs outs1 h1 :
  Outcomes rt t h cfgs outs1 h1 ->
  forall outs2 h2, Outcomes rt t h cfgs outs2 h2 -> outs1 = outs2 /\ h1 = h2.
Proof.
  induction 1 as [h | h d cfgs o evs outs h' Hatt Hrest IH]; intros outs2 h2 H2.
  - inversion H2; subst; auto.
  - inversion H2 as [ | ? ? ? o2 evs2 outs2' ? Hatt2 Hrest2 ]; subst.
    rewrite Hatt in Hatt2. injection Hatt2 as <- <-.
    destruct (IH _ _ Hrest2) as [-> ->]. auto.
Qed.

Lemma Outcomes_length rt t h cfgs outs h' :
  Outcomes rt t h cfgs outs h' -> length outs = length cfgs.
Proof. induction 1; simpl; congruence. Qed.

Lemma builds_app h1 h2 : builds (h1 ++ h2) = builds h1 + builds h2.
Proof. unfold builds. by rewrite List.filter_app, length_app. Qed.

Lemma listings_app h1 h2 : listings (h1 ++ h2) = listings h1 + listings h2.
Proof. unfold listings. by rewrite List.filter_app, length_app. Qed.

Lemma attempt_calls rt t h cfg o evs :
  attempt rt t h cfg = (o, evs) ->
  builds evs = 1 /\ listings evs = (if constructed o then 1 else 0).
Proof.
  unfold attempt. destruct (_build_toolset rt h cfg) as [ts|e].
  - destruct (wait_for_get_tools _ _ _ _); intros [= <- <-]; auto.
  - intros [= <- <-]; auto.
Qed.

(** A pass calls the factory once per descriptor and the list-tools
    capability once per toolset the factory returned. *)
Lemma Outcomes_calls rt t h cfgs outs h' :
  Outcomes rt t h cfgs outs h' ->
  builds h' = builds h + length cfgs /\
  listings h' = listings h + length (List.filter (fun no => constructed (snd no)) outs).
Proof.
  induction 1 as [h | h d cfgs o evs outs h' Hatt Hrest [IHb IHl]].
  - simpl. lia.
  - destruct (attempt_calls _ _ _ _ _ _ Hatt) as [Hb Hl].
    rewrite IHb, IHl, builds_app, listings_app, Hb, Hl. cbn [List.filter snd length].
    destruct (constructed o); simpl; lia.
Qed.

(** Whatever the loop meets, it writes no attribute and touches no list
    other than [loaded_tools]. *)
Lemma load_loop_frame rt a cfgs :
  forall failures self w cur r s',
    heap w !! a = Some cur ->
    load_loop rt a failures cfgs (self, w) = (r, s') ->
    fst s' = self /\
    (forall b, b <> a -> heap (snd s') !! b = heap w !! b) /\
    is_Some (heap (snd s') !! a).
Proof.
  induction cfgs as [ | v cfgs IH]; intros failures self w cur r s' Hcur Hrun.
  - injection Hrun as <- <-. simpl. eauto.
  - cbn [load_loop] in Hrun. unfold mbind, M_bind in Hrun.
    destruct (is_dict v) eqn:Hv.
    + destruct v; try discriminate Hv.
      destruct (attempt rt (timeout_s self) (calls w) (PDict entries)) as [o evs] eqn:Hatt.
      rewrite (load_one_mapping rt a failures entries self w cur o evs Hcur Hatt) in Hrun.
      cbv zeta in Hrun.
      eapply IH in Hrun; [ | apply lookup_insert_eq ].
      destruct Hrun as (Hself & Hother & Ha). cbn [heap] in Hother.
      repeat split; auto.
      intros b Hb. rewrite Hother by done. by apply lookup_insert_ne.
    + destruct (load_one_not_mapping rt a failures v self w Hv) as (e & _ & Hone).
      rewrite Hone in Hrun. injection Hrun as <- <-. simpl. eauto.
Qed.

(** A descriptor that is not a mapping stops the loop with the
    [AttributeError] of its [get], after the descriptors before it have
    been processed. *)
Lemma load_loop_escapes rt t h pre outs h' :
  Outcomes rt t h pre outs h' ->
  forall v post a failures self w cur,
    is_dict v = false ->
    timeout_s self = t -> calls w = h -> heap w !! a = Some cur ->
    exists e w',
      get_name v = Raise e /\
      load_loop rt a failures (pre ++ v :: post) (self, w) = (Raise e, (self, w')) /\
      calls w' = h'.
Proof.
  induction 1 as [h | h d cfgs o evs outs h' Hatt Hrest IH];
    intros v post a failures self w cur Hv Ht Hh Hcur.
  - destruct (load_one_not_mapping rt a failures v self w Hv) as (e & Hname & Hone).
    exists e, w. cbn [app load_loop]. unfold mbind, M_bind. rewrite Hone. auto.
  - subst t h. cbn [app load_loop]. unfold mbind, M_bind.
    rewrite (load_one_mapping rt a failures d self w cur o evs Hcur Hatt).
    cbv zeta.
    eapply IH; eauto. apply lookup_insert_eq.
Qed.

Lemma fresh_lookup (m : gmap loc (list pyval)) : m !! fresh (dom m) = None.
Proof. apply not_elem_of_dom, is_fresh. Qed.

Lemma fresh_ne (m : gmap loc (list pyval)) (b : loc) :
  is_Some (m !! b) -> fresh (dom m) <> b.
Proof. intros Hb <-. rewrite fresh_lookup in Hb. by destruct Hb. Qed.

Lemma lookup_total_alloc (m : gmap loc (list pyval)) (b : loc) :
  <[fresh (dom m) := []]> m !!! b = m !!! b.
Proof.
  destruct (decide (fresh (dom m) = b)) as [<- | Hne].
  - rewrite lookup_total_insert_eq.
    by rewrite lookup_total_alt, fresh_lookup.
  - by rewrite lookup_total_insert_ne.
Qed.

Lemma load_all_tools_cached rt self w :
  _loaded self = true -> _load_all_tools rt (self, w) = (Ok tt, (self, w)).
Proof.
  intros Hl. unfold _load_all_tools, mbind, M_bind, get_self. simpl.
  rewrite Hl. reflexivity.
Qed.

Lemma load_all_tools_first rt self w outs h' :
  _loaded self = false ->
  Outcomes rt (timeout_s self) (calls w) (heap w !!! servers self) outs h' ->
  _load_all_tools rt (self, w) =
    (Ok tt,
     (loaded_at self (fresh (dom (heap w))),
      {| heap := <[fresh (dom (heap w)) := merged outs]> (heap w);
         calls := h';
         log := (log w ++ map (record_of (timeout_s self)) outs
                 ++ summary (reasons rt (timeout_s self) outs))%list |})).
Proof.
  intros Hl Houts.
  unfold _load_all_tools, mbind, M_bind, get_self. cbn [fst snd].
  rewrite Hl. unfold in_world at 1 2, alloc, read_list. cbn [fst snd heap calls log].
  rewrite lookup_total_alloc.
  erewrite (load_loop_outcomes rt _ _ _ _ _ Houts);
    [ | reflexivity | reflexivity | apply lookup_insert_eq ].
  cbn [heap calls log app]. rewrite insert_insert_eq.
  unfold set_tools, set_loaded, loaded_at, summary, mret, M_ret. cbn.
  destruct (reasons rt (timeout_s self) outs) as [ | r rs].
  - rewrite app_nil_r. reflexivity.
  - unfold in_world, logger_warning, emit. cbn [fst snd heap calls log].
    rewrite <- app_assoc. reflexivity.
Qed.

Lemma get_tools_cached rt self w :
  _loaded self = true ->
  get_tools rt (self, w) =
    (Ok (fresh (dom (heap w))),
     (self, store (fresh (dom (heap w))) (heap w !!! _tools self) w)).
Proof.
  intros Hl. unfold get_tools, mbind, M_bind.
  rewrite (load_all_tools_cached rt self w Hl). reflexivity.
Qed.

Lemma get_tools_first rt self w outs h' :
  _loaded self = false ->
  Outcomes rt (timeout_s self) (calls w) (heap w !!! servers self) outs h' ->
  let a := fresh (dom (heap w)) in
  let r := fresh (dom (<[a := merged outs]> (heap w))) in
  get_tools rt (self, w) =
    (Ok r,
     (loaded_at self a,
      {| heap := <[r := merged outs]> (<[a := merged outs]> (heap w));
         calls := h';
         log := (log w ++ map (record_of (timeout_s self)) outs
                 ++ summary (reasons rt (timeout_s self) outs))%list |})).
Proof.
  intros Hl Houts a r. unfold get_tools, mbind, M_bind.
  rewrite (load_all_tools_first rt self w outs h' Hl Houts).
  unfold get_self, in_world, read_list, alloc, loaded_at. cbn.
  fold a. rewrite lookup_total_insert_eq. reflexivity.
Qed.


Lemma outcomes_sound rt t cfgs :
  forall h outs h',
    outcomes rt t h cfgs = Some (outs, h') -> Outcomes rt t h cfgs outs h'.
Proof.
  induction cfgs as [ | v cfgs IH]; intros h outs h' Hrun; simpl in Hrun.
  - injection Hrun as <- <-. constructor.
  - destruct v; try discriminate Hrun. cbn [is_dict] in Hrun.
    destruct (attempt rt t h (PDict entries)) as [o evs] eqn:Hatt.
    destruct (outcomes rt t (h ++ evs)%list cfgs) as [[outs0 h0] | ] eqn:Hrest;
      [ | discriminate Hrun ].
    injection Hrun as <- <-.
    econstructor; [ exact Hatt | apply IH, Hrest ].
Qed.

Lemma outcomes_complete rt t h cfgs outs h' :
  Outcomes rt t h cfgs outs h' -> outcomes rt t h cfgs = Some (outs, h').
Proof.
  induction 1 as [h | h d cfgs o evs outs h' Hatt Hrest IH]; simpl.
  - reflexivity.
  - rewrite Hatt, IH. reflexivity.
Qed.

Lemma outcomes_mappings rt t cfgs :
  forallb is_dict cfgs = true -> forall h, is_Some (outcomes rt t h cfgs).
Proof.
  intros Hall h.
  destruct (Outcomes_total rt t cfgs) with (h := h) as (outs & h' & Hrun).
  - apply Forall_forall. intros v Hv.
    rewrite forallb_forall in Hall. apply Hall. by apply list_elem_of_In.
  - rewrite (outcomes_complete _ _ _ _ _ _ Hrun). eauto.
Qed.

(** When the loop cannot go through, it raises. *)
Lemma load_loop_stuck rt cfgs :
  forall a failures self w cur,
    heap w !! a = Some cur ->
    outcomes rt (timeout_s self) (calls w) cfgs = None ->
    exists e s', load_loop rt a failures cfgs (self, w) = (Raise e, s').
Proof.
  induction cfgs as [ | v cfgs IH]; intros a failures self w cur Hcur Hnone;
    simpl in Hnone; [ discriminate Hnone | ].
  cbn [load_loop]. unfold mbind, M_bind.
  destruct (is_dict v) eqn:Hv.
  - destruct v; try discriminate Hv.
    destruct (attempt rt (timeout_s self) (calls w) (PDict entries)) as [o evs] eqn:Hatt.
    rewrite (load_one_mapping rt a failures entries self w cur o evs Hcur Hatt).
    cbv zeta. eapply IH; [ apply lookup_insert_eq | ].
    cbn [calls].
    destruct (outcomes rt (timeout_s self) (calls w ++ evs)%list cfgs) as [[? ?]| ];
      [ discriminate Hnone | reflexivity ].
  - destruct (load_one_not_mapping rt a failures v self w Hv) as (e & _ & Hone).
    rewrite Hone. eauto.
Qed.

(** A first call that returns has gone through every descriptor. *)
Lemma get_tools_first_inv rt self w r s1 :
  _loaded self = false ->
  get_tools rt (self, w) = (Ok r, s1) ->
  exists outs h',
    outcomes rt (timeout_s self) (calls w) (heap w !!! servers self) = Some (outs, h').
Proof.
  intros Hl Hrun.
  destruct (outcomes rt (timeout_s self) (calls w) (heap w !!! servers self))
    as [[outs h'] | ] eqn:Houts; [ eauto | exfalso ].
  unfold get_tools, _load_all_tools, mbind, M_bind, get_self in Hrun.
  cbn [fst snd] in Hrun. rewrite Hl in Hrun.
  unfold in_world at 1 2, alloc, read_list in Hrun. cbn [fst snd heap calls log] in Hrun.
  rewrite lookup_total_alloc in Hrun.
  match type of Hrun with
  | context [load_loop ?rt' ?a ?f ?cfgs ?s] =>
      destruct (load_loop_stuck rt' cfgs a f self (snd s) []) as (e & s' & Hloop)
  end; [ apply lookup_insert_eq | exact Houts | ].
  cbn [snd] in Hloop. rewrite Hloop in Hrun. discriminate Hrun.
Qed.

Lemma merged_all_loaded outs toolss :
  map snd outs = map Loaded toolss -> merged outs = concat toolss.
Proof.
  revert toolss. unfold merged.
  induction outs as [ | [name o] outs IH]; intros [ | tools toolss] Heq;
    try discriminate Heq; [ reflexivity | ].
  injection Heq as -> Heq. simpl. f_equal. by apply IH.
Qed.

Lemma reasons_all_loaded rt t outs toolss :
  map snd outs = map Loaded toolss -> reasons rt t outs = [].
Proof.
  revert toolss. unfold reasons.
  induction outs as [ | [name o] outs IH]; intros [ | tools toolss] Heq;
    try discriminate Heq; [ reflexivity | ].
  injection Heq as -> Heq. simpl. by eapply IH.
Qed.

Lemma merged_app outs1 outs2 : merged (outs1 ++ outs2) = (merged outs1 ++ merged outs2)%list.
Proof. unfold merged. by rewrite map_app, concat_app. Qed.

Lemma reasons_app rt t outs1 outs2 :
  reasons rt t (outs1 ++ outs2) = (reasons rt t outs1 ++ reasons rt t outs2)%list.
Proof. unfold reasons. by rewrite map_app, concat_app. Qed.

(** With the placeholder [_build_toolset], every server is skipped as an
    unexpected error and the merged list is empty. *)
Example shipped_connector_skips_every_server :
  outcomes shipped_rt ten_seconds [] [server "alpha"; server "beta"]
  = Some ([(PStr "alpha", BuildFailed (NotImplementedError EmptyString));
           (PStr "beta", BuildFailed (NotImplementedError EmptyString))],
          [BuildToolset (server "alpha"); BuildToolset (server "beta")]) /\
  reasons shipped_rt ten_seconds
    [(PStr "alpha", BuildFailed (NotImplementedError EmptyString));
     (PStr "beta", BuildFailed (NotImplementedError EmptyString))]
  = ["alpha: unexpected error (NotImplementedError: )";
     "beta: unexpected error (NotImplementedError: )"].
Proof. split; reflexivity. Qed.

(** ** Merging in descriptor order *)

(** C1. When every descriptor of the list gets its toolset and its
    [get_tools()] returns within the timeout, the first [get_tools] of
    the connector returns a list holding the handles of all sources,
    source after source in the order of the descriptor list and, within
    a source, in the order the source returned them; nothing is
    skipped. The loop is sequential, so no other order can arise. *)
Theorem get_tools_merges_in_descriptor_order rt self w outs h' toolss :
  _loaded self = false ->
  outcomes rt (timeout_s self) (calls w) (heap w !!! servers self) = Some (outs, h') ->
  map snd outs = map Loaded toolss ->
  exists r s',
    get_tools rt (self, w) = (Ok r, s') /\
    heap (snd s') !! r = Some (concat toolss) /\
    length toolss = length (heap w !!! servers self) /\
    reasons rt (timeout_s self) outs = [].
Proof.
  intros Hl Houts Hall.
  pose proof (outcomes_sound _ _ _ _ _ _ Houts) as Hrel.
  eexists _, _. split; [ apply (get_tools_first rt self w outs h' Hl Hrel) | ].
  cbn [snd heap]. rewrite lookup_insert_eq.
  rewrite (merged_all_loaded _ _ Hall), (reasons_all_loaded rt _ _ _ Hall).
  repeat split.
  rewrite <- (Outcomes_length _ _ _ _ _ _ Hrel).
  rewrite <- (length_map snd outs), Hall. by rewrite length_map.
Qed.

Lemma get_tools_merges_in_descriptor_order_witness :
  exists r s',
    get_tools demo_rt (demo_self, demo_world [server "alpha"; server "beta"]) = (Ok r, s') /\
    heap (snd s') !! r
      = Some (concat [[PObj "MCPTool" 1; PObj "MCPTool" 2];
                      [PObj "MCPTool" 3; PObj "MCPTool" 4]]) /\
    length [[PObj "MCPTool" 1; PObj "MCPTool" 2]; [PObj "MCPTool" 3; PObj "MCPTool" 4]]
      = length (heap (demo_world [server "alpha"; server "beta"]) !!! servers demo_self) /\
    reasons demo_rt (timeout_s demo_self)
      [(PStr "alpha", Loaded [PObj "MCPTool" 1; PObj "MCPTool" 2]);
       (PStr "beta", Loaded [PObj "MCPTool" 3; PObj "MCPTool" 4])] = [].
Proof.
  apply (get_tools_merges_in_descriptor_order demo_rt demo_self
           (demo_world [server "alpha"; server "beta"])
           [(PStr "alpha", Loaded [PObj "MCPTool" 1; PObj "MCPTool" 2]);
            (PStr "beta", Loaded [PObj "MCPTool" 3; PObj "MCPTool" 4])]
           [BuildToolset (server "alpha"); GetTools (PObj "MCPToolset" 0) ten_seconds;
            BuildToolset (server "beta"); GetTools (PObj "MCPToolset" 2) ten_seconds]);
    vm_compute; reflexivity.
Defined.

(** ** One failing descriptor *)

Lemma outcomes_name_at rt t cfgs :
  forall h outs h' k cfg,
    outcomes rt t h cfgs = Some (outs, h') ->
    cfgs !! k = Some cfg ->
    exists o, outs !! k = Some (name_of cfg, o).
Proof.
  induction cfgs as [ | v cfgs IH]; intros h outs h' k cfg Hrun Hk;
    [ discriminate Hk | ].
  simpl in Hrun.
  destruct (is_dict v); [ | discriminate Hrun ].
  destruct (attempt rt t h v) as [o evs].
  destruct (outcomes rt t (h ++ evs)%list cfgs) as [[outs0 h0] | ] eqn:Hrest;
    [ | discriminate Hrun ].
  injection Hrun as <- <-.
  destruct k as [ | k]; simpl in Hk |- *.
  - injection Hk as ->. eauto.
  - eapply IH; eauto.
Qed.

Lemma failure_reason_starts_with_name rt name t e :
  exists rest, failure_reason rt name t e = py_str rt name +:+ rest.
Proof. destruct e; simpl; eauto. Qed.

(** C2. When exactly one descriptor, the one at position [length pre],
    fails, at construction or at listing, with an exception [e] of any
    of the four kinds, and every other descriptor succeeds, [get_tools]
    returns the handles of the successful sources in descriptor order
    and nothing from the failed one; exactly one reason is recorded, it
    begins with the name of the failed descriptor, and it is the only
    entry of the closing summary. An [asyncio.TimeoutError], at whatever
    instant [wait_for] raises it, is recorded with the timeout reason
    and contributes no handle. *)
Theorem single_failure_is_skipped rt self w outs h' pre oK post e cfgK :
  _loaded self = false ->
  outcomes rt (timeout_s self) (calls w) (heap w !!! servers self) = Some (outs, h') ->
  map snd outs = (map Loaded pre ++ oK :: map Loaded post)%list ->
  outcome_error oK = Some e ->
  (heap w !!! servers self) !! length pre = Some cfgK ->
  let reason := failure_reason rt (name_of cfgK) (timeout_s self) e in
  exists r s',
    get_tools rt (self, w) = (Ok r, s') /\
    heap (snd s') !! r = Some (concat pre ++ concat post)%list /\
    reasons rt (timeout_s self) outs = [reason] /\
    (exists rest, reason = py_str rt (name_of cfgK) +:+ rest) /\
    log (snd s') = (log w ++ map (record_of (timeout_s self)) outs ++ summary [reason])%list /\
    (forall m, e = AsyncioTimeoutError m ->
       reason = py_str rt (name_of cfgK) +:+ ": get_tools() timed out after "
                +:+ py_str rt (timeout_s self) +:+ "s").
Proof.
  intros Hl Houts Hshape Herr HK reason.
  pose proof (outcomes_sound _ _ _ _ _ _ Houts) as Hrel.
  apply map_eq_app in Hshape as (outs1 & outs2 & -> & Hpre & Hshape).
  apply map_eq_cons in Hshape as ([nameK oK'] & outs3 & -> & HoK & Hpost).
  cbn [snd] in HoK. subst oK'.
  assert (nameK = name_of cfgK) as ->.
  { destruct (outcomes_name_at _ _ _ _ _ _ _ _ Houts HK) as (o & Hat).
    rewrite list_lookup_middle in Hat; [ congruence | ].
    by rewrite <- (length_map snd outs1), Hpre, length_map. }
  assert (Hreasons : reasons rt (timeout_s self) (outs1 ++ (name_of cfgK, oK) :: outs3)
                     = [reason]).
  { rewrite reasons_app. change (?x :: outs3) with ([x] ++ outs3)%list.
    rewrite reasons_app, (reasons_all_loaded rt _ _ _ Hpre),
      (reasons_all_loaded rt _ _ _ Hpost).
    unfold reasons, reason_of. cbn. rewrite Herr. reflexivity. }
  eexists _, _. split; [ apply (get_tools_first rt self w _ h' Hl Hrel) | ].
  cbn [snd heap log]. rewrite lookup_insert_eq, Hreasons.
  repeat split.
  - f_equal. rewrite merged_app. change (?x :: outs3) with ([x] ++ outs3)%list.
    rewrite merged_app, (merged_all_loaded _ _ Hpre), (merged_all_loaded _ _ Hpost).
    unfold merged. cbn. destruct oK; [ discriminate Herr | reflexivity | reflexivity ].
  - apply failure_reason_starts_with_name.
  - intros m ->. reflexivity.
Qed.

Lemma single_failure_is_skipped_witness :
  let reason :=
    failure_reason demo_rt (name_of (server "slow")) (timeout_s demo_self)
                   (AsyncioTimeoutError EmptyString) in
  exists r s',
    get_tools demo_rt (demo_self, demo_world mixed_servers) = (Ok r, s') /\
    heap (snd s') !! r
      = Some (concat [[PObj "MCPTool" 1; PObj "MCPTool" 2]]
              ++ concat [[PObj "MCPTool" 5; PObj "MCPTool" 6]])%list /\
    reasons demo_rt (timeout_s demo_self) mixed_outs = [reason] /\
    (exists rest, reason = py_str demo_rt (name_of (server "slow")) +:+ rest) /\
    log (snd s')
      = (log (demo_world mixed_servers)
         ++ map (record_of (timeout_s demo_self)) mixed_outs ++ summary [reason])%list /\
    (forall m, AsyncioTimeoutError EmptyString = AsyncioTimeoutError m ->
       reason = py_str demo_rt (name_of (server "slow"))
                +:+ ": get_tools() timed out after "
                +:+ py_str demo_rt (timeout_s demo_self) +:+ "s").
Proof.
  apply (single_failure_is_skipped demo_rt demo_self (demo_world mixed_servers)
           mixed_outs mixed_calls
           [[PObj "MCPTool" 1; PObj "MCPTool" 2]]
           (ListFailed (AsyncioTimeoutError EmptyString))
           [[PObj "MCPTool" 5; PObj "MCPTool" 6]]
           (AsyncioTimeoutError EmptyString) (server "slow"));
    vm_compute; reflexivity.
Defined.

(** ** No failure escapes a list of mappings *)

Lemma reasons_length rt t outs :
  length (reasons rt t outs) = length (List.filter (fun no => failed (snd no)) outs).
Proof.
  unfold reasons, reason_of, failed.
  induction outs as [ | [name o] outs IH]; [ reflexivity | ].
  cbn [map concat List.filter snd fst].
  destruct (outcome_error o); simpl; auto.
Qed.

(** Over a descriptor list that holds only mappings, whatever
    [Exception] the factory and the list-tools calls of a [Runtime]
    raise, [get_tools] returns and the connector is loaded; on a first
    pass, each failed descriptor has become one reason and one log
    record, and the reasons are reported once in the closing summary. *)
Lemma handled_failures_become_skips rt self w :
  forallb is_dict (heap w !!! servers self) = true ->
  exists r s',
    get_tools rt (self, w) = (Ok r, s') /\
    _loaded (fst s') = true /\
    (_loaded self = false ->
     exists outs h',
       outcomes rt (timeout_s self) (calls w) (heap w !!! servers self) = Some (outs, h') /\
       length (reasons rt (timeout_s self) outs)
         = length (List.filter (fun no => failed (snd no)) outs) /\
       log (snd s')
         = (log w ++ map (record_of (timeout_s self)) outs
            ++ summary (reasons rt (timeout_s self) outs))%list).
Proof.
  intros Hall. destruct (_loaded self) eqn:Hl.
  - eexists _, _. split; [ apply (get_tools_cached rt self w Hl) | ].
    split; [ exact Hl | discriminate ].
  - destruct (outcomes_mappings rt (timeout_s self) _ Hall (calls w))
      as [[outs h'] Houts].
    pose proof (outcomes_sound _ _ _ _ _ _ Houts) as Hrel.
    eexists _, _. split; [ apply (get_tools_first rt self w outs h' Hl Hrel) | ].
    split; [ reflexivity | ].
    intros _. exists outs, h'. split; [ exact Houts | ].
    split; [ apply reasons_length | reflexivity ].
Qed.

(** ** The cache is computed once *)

Lemma get_tools_cached_step rt s :
  cached s ->
  let s' := snd (get_tools rt s) in
  cached s' /\ fst s' = fst s /\ calls (snd s') = calls (snd s) /\
  log (snd s') = log (snd s) /\
  heap (snd s') !! _tools (fst s) = heap (snd s) !! _tools (fst s).
Proof.
  destruct s as [self w]. intros [Hl Hlive]. cbn [fst snd] in Hl, Hlive.
  rewrite (get_tools_cached rt self w Hl). cbn.
  assert (heap w !! _tools self = <[fresh (dom (heap w)) := heap w !!! _tools self]> (heap w)
                                   !! _tools self) as Heq
    by (symmetry; apply lookup_insert_ne, fresh_ne, Hlive).
  unfold cached. cbn. rewrite <- Heq. auto.
Qed.

Lemma later_calls_cached rt n :
  forall s, cached s ->
    let sn := later_calls rt n s in
    cached sn /\ fst sn = fst s /\ calls (snd sn) = calls (snd s) /\
    log (snd sn) = log (snd s) /\
    heap (snd sn) !! _tools (fst s) = heap (snd s) !! _tools (fst s).
Proof.
  induction n as [ | n IH]; intros s Hs; cbn [later_calls].
  - auto.
  - destruct (get_tools_cached_step rt s Hs) as (Hs' & Hself & Hcalls & Hlog & Hheap).
    destruct (IH _ Hs') as (Hsn & Hselfn & Hcallsn & Hlogn & Heapn).
    cbv zeta. rewrite Hself in Heapn, Hselfn.
    repeat split; try apply Hsn; congruence.
Qed.

Lemma filter_all_length {A} (f : A -> bool) (l : list A) :
  forallb f l = true -> length (List.filter f l) = length l.
Proof.
  induction l as [ | x l IH]; simpl; [ reflexivity | ].
  destruct (f x); simpl; [ auto | discriminate ].
Qed.

(** C3, as the code has it. After a first [get_tools] that returned,
    possibly with skipped descriptors, the connector is loaded, and [n]
    further calls, for any [n], change neither the attributes, nor the
    cached list, nor the call history, nor the log: [_load_all_tools]
    is a no-op and each call returns a list equal to the one first
    returned. In total the factory has been called once per descriptor,
    and the list-tools capability once per toolset the factory
    returned: once per descriptor when every toolset was built. *)
Theorem loaded_connector_never_reloads rt self w r1 s1 n :
  _loaded self = false ->
  get_tools rt (self, w) = (Ok r1, s1) ->
  let sn := later_calls rt n s1 in
  let cfgs := heap w !!! servers self in
  _loaded (fst s1) = true /\
  fst sn = fst s1 /\ calls (snd sn) = calls (snd s1) /\ log (snd sn) = log (snd s1) /\
  heap (snd sn) !! _tools (fst s1) = heap (snd s1) !! _tools (fst s1) /\
  _load_all_tools rt sn = (Ok tt, sn) /\
  (exists r s',
     get_tools rt sn = (Ok r, s') /\
     heap (snd s') !! r = heap (snd s1) !! r1 /\
     calls (snd s') = calls (snd s1)) /\
  builds (calls (snd sn)) = builds (calls w) + length cfgs /\
  exists outs h',
    outcomes rt (timeout_s self) (calls w) cfgs = Some (outs, h') /\
    listings (calls (snd sn))
      = listings (calls w) + length (List.filter (fun no => constructed (snd no)) outs) /\
    (forallb (fun no => constructed (snd no)) outs = true ->
     listings (calls (snd sn)) = listings (calls w) + length cfgs).
Proof.
  intros Hl Hrun sn cfgs.
  destruct (get_tools_first_inv rt self w r1 s1 Hl Hrun) as (outs & h' & Houts).
  pose proof (outcomes_sound _ _ _ _ _ _ Houts) as Hrel.
  pose proof (get_tools_first rt self w outs h' Hl Hrel) as Hfirst. cbv zeta in Hfirst.
  set (a := fresh (dom (heap w))) in *.
  set (r := fresh (dom (<[a := merged outs]> (heap w)))) in *.
  rewrite Hfirst in Hrun. injection Hrun as <- <-.
  assert (Hcache : <[r := merged outs]> (<[a := merged outs]> (heap w)) !! a
                   = Some (merged outs)).
  { rewrite lookup_insert_ne; [ apply lookup_insert_eq | ].
    apply fresh_ne. rewrite lookup_insert_eq. eauto. }
  match goal with
  | sn := later_calls rt n ?s |- _ =>
      assert (Hc : cached s) by (split; [ reflexivity | cbn; rewrite Hcache; eauto ]);
      destruct (later_calls_cached rt n s Hc)
        as ((Hln & Hlive) & Hself & Hcalls & Hlog & Hheap)
  end.
  fold sn in Hln, Hlive, Hself, Hcalls, Hlog, Hheap.
  cbn [fst snd calls log heap loaded_at _tools] in Hself, Hcalls, Hlog, Hheap |- *.
  rewrite Hcache in Hheap.
  destruct (Outcomes_calls _ _ _ _ _ _ Hrel) as [Hb Hli].
  destruct sn as [selfn wn]. cbn [fst snd] in *.
  split; [ reflexivity | ].
  split; [ exact Hself | ].
  split; [ exact Hcalls | ].
  split; [ exact Hlog | ].
  split; [ rewrite Hcache; exact Hheap | ].
  split; [ apply load_all_tools_cached, Hln | ].
  split.
  { eexists _, _. split; [ apply (get_tools_cached rt selfn wn Hln) | ].
    cbn. rewrite !lookup_insert_eq. split; [ | exact Hcalls ].
    rewrite Hself. cbn [loaded_at _tools].
    by rewrite (lookup_total_correct _ _ _ Hheap). }
  split; [ rewrite Hcalls; exact Hb | ].
  exists outs, h'. split; [ exact Houts | ].
  split; [ rewrite Hcalls; exact Hli | ].
  intros Hbuilt. rewrite Hcalls, Hli, (filter_all_length _ _ Hbuilt).
  by rewrite (Outcomes_length _ _ _ _ _ _ Hrel).
Qed.

Lemma loaded_connector_never_reloads_witness :
  let s1 := snd (get_tools demo_rt (demo_self, demo_world mixed_servers)) in
  let r1 := 4%positive in
  let sn := later_calls demo_rt 3 s1 in
  let cfgs := heap (demo_world mixed_servers) !!! servers demo_self in
  _loaded (fst s1) = true /\
  fst sn = fst s1 /\ calls (snd sn) = calls (snd s1) /\ log (snd sn) = log (snd s1) /\
  heap (snd sn) !! _tools (fst s1) = heap (snd s1) !! _tools (fst s1) /\
  _load_all_tools demo_rt sn = (Ok tt, sn) /\
  (exists r s',
     get_tools demo_rt sn = (Ok r, s') /\
     heap (snd s') !! r = heap (snd s1) !! r1 /\
     calls (snd s') = calls (snd s1)) /\
  builds (calls (snd sn)) = builds (calls (demo_world mixed_servers)) + length cfgs /\
  exists outs h',
    outcomes demo_rt (timeout_s demo_self) (calls (demo_world mixed_servers)) cfgs
      = Some (outs, h') /\
    listings (calls (snd sn))
      = listings (calls (demo_world mixed_servers))
        + length (List.filter (fun no => constructed (snd no)) outs) /\
    (forallb (fun no => constructed (snd no)) outs = true ->
     listings (calls (snd sn))
       = listings (calls (demo_world mixed_servers)) + length cfgs).
Proof.
  apply (loaded_connector_never_reloads demo_rt demo_self (demo_world mixed_servers)
           4%positive
           (snd (get_tools demo_rt (demo_self, demo_world mixed_servers))) 3);
    vm_compute; reflexivity.
Defined.

(** C3, as stated, fails on the count of list-tools calls: of three
    servers, the second has no toolset built, so two calls of
    [get_tools] make three factory calls but only two list-tools
    calls. *)
Lemma unbuilt_toolset_is_never_listed :
  ~ two_calls_invoke_each_once_per_descriptor demo_rt demo_self (demo_world ghost_servers).
Proof.
  intros (r1 & s1 & r2 & s2 & Hfirst & Hsecond & _ & Hlistings).
  vm_compute in Hfirst. injection Hfirst as <- <-.
  vm_compute in Hsecond. injection Hsecond as <- <-.
  vm_compute in Hlistings. discriminate Hlistings.
Qed.

(** ** A pass that raises *)



Lemma lookup_total_nonempty (m : gmap loc (list pyval)) (b : loc) x l :
  m !!! b = x :: l -> is_Some (m !! b).
Proof.
  rewrite lookup_total_alt. destruct (m !! b); [ eauto | discriminate ].
Qed.

Lemma app_cons_nonempty {A} (pre : list A) v post :
  exists x l, (pre ++ v :: post)%list = x :: l.
Proof. destruct pre; simpl; eauto. Qed.

(** The pass over a list whose first non-mapping is [v]. *)
Lemma load_all_tools_escapes rt self w pre v post outs h1 :
  _loaded self = false ->
  heap w !!! servers self = (pre ++ v :: post)%list ->
  is_dict v = false ->
  outcomes rt (timeout_s self) (calls w) pre = Some (outs, h1) ->
  exists e w',
    get_name v = Raise e /\
    _load_all_tools rt (self, w) = (Raise e, (self, w')) /\
    calls w' = h1 /\
    heap w' !!! servers self = heap w !!! servers self.
Proof.
  intros Hl Hcfgs Hv Hpre.
  pose proof (outcomes_sound _ _ _ _ _ _ Hpre) as Hrel.
  unfold _load_all_tools, mbind, M_bind, get_self. cbn [fst snd].
  rewrite Hl. unfold in_world at 1 2, alloc, read_list. cbn [fst snd heap calls log].
  rewrite lookup_total_alloc, Hcfgs.
  set (w0 := {| heap := <[fresh (dom (heap w)) := []]> (heap w);
                calls := calls w; log := log w |}).
  destruct (load_loop_escapes rt _ _ _ _ _ Hrel v post (fresh (dom (heap w))) []
              self w0 [] Hv eq_refl eq_refl (lookup_insert_eq _ _ _))
    as (e & w' & Hname & Hloop & Hcalls).
  exists e, w'. rewrite Hloop. repeat split; auto.
  destruct (load_loop_frame _ _ _ _ _ _ _ _ _ (lookup_insert_eq _ _ _) Hloop)
    as (_ & Hother & _).
  cbn [snd] in Hother.
  destruct (app_cons_nonempty pre v post) as (x & l & Hne).
  assert (Hlive : is_Some (heap w !! servers self))
    by (eapply lookup_total_nonempty; rewrite Hcfgs; exact Hne).
  rewrite <- Hcfgs.
  rewrite !lookup_total_alt, Hother by (apply not_eq_sym, fresh_ne, Hlive).
  cbn [heap w0]. rewrite lookup_insert_ne by (apply fresh_ne, Hlive). reflexivity.
Qed.



(** ** The returned list is a copy *)

Lemma cached_get_tools_copy rt s cache :
  _loaded (fst s) = true ->
  heap (snd s) !! _tools (fst s) = Some cache ->
  exists r s',
    get_tools rt s = (Ok r, s') /\ fst s' = fst s /\
    r <> _tools (fst s) /\
    heap (snd s') !! r = Some cache /\
    heap (snd s') !! _tools (fst s) = Some cache.
Proof.
  destruct s as [self w]. cbn [fst snd]. intros Hl Hcache.
  eexists _, _. split; [ apply (get_tools_cached rt self w Hl) | ].
  assert (Hne : fresh (dom (heap w)) <> _tools self) by (apply fresh_ne; eauto).
  cbn. rewrite lookup_insert_eq, (lookup_insert_ne _ _ _ _ Hne).
  by rewrite (lookup_total_correct _ _ _ Hcache).
Qed.

Lemma first_get_tools_copy rt self w r s1 :
  _loaded self = false ->
  get_tools rt (self, w) = (Ok r, s1) ->
  exists cache,
    _loaded (fst s1) = true /\
    r <> _tools (fst s1) /\
    heap (snd s1) !! r = Some cache /\
    heap (snd s1) !! _tools (fst s1) = Some cache.
Proof.
  intros Hl Hrun.
  destruct (get_tools_first_inv rt self w r s1 Hl Hrun) as (outs & h' & Houts).
  pose proof (get_tools_first rt self w outs h' Hl (outcomes_sound _ _ _ _ _ _ Houts))
    as Hfirst.
  cbv zeta in Hfirst. rewrite Hfirst in Hrun. injection Hrun as <- <-.
  exists (merged outs). cbn.
  assert (Hne : fresh (dom (<[fresh (dom (heap w)) := merged outs]> (heap w)))
                <> fresh (dom (heap w)))
    by (apply fresh_ne; rewrite lookup_insert_eq; eauto).
  rewrite lookup_insert_eq, (lookup_insert_ne _ _ _ _ Hne), lookup_insert_eq.
  auto.
Qed.

(** C8. The list that [get_tools] returns is an object of its own, not
    the cached one, with the same elements. Whatever the caller writes
    into the returned list ([items'] stands for its new elements), the
    cached list keeps its elements, and every later call returns yet
    another list with the elements of the cache. *)
Theorem get_tools_returns_a_copy rt self w r s1 items' :
  is_Some (heap w !! _tools self) ->
  get_tools rt (self, w) = (Ok r, s1) ->
  exists cache,
    heap (snd s1) !! _tools (fst s1) = Some cache /\
    heap (snd s1) !! r = Some cache /\
    r <> _tools (fst s1) /\
    let s1' := (fst s1, store r items' (snd s1)) in
    heap (snd s1') !! _tools (fst s1') = Some cache /\
    forall n, exists r2 s2,
      get_tools rt (later_calls rt n s1') = (Ok r2, s2) /\
      r2 <> _tools (fst s2) /\
      heap (snd s2) !! r2 = Some cache /\
      heap (snd s2) !! _tools (fst s2) = Some cache.
Proof.
  intros Hlive Hrun.
  assert (exists cache,
            _loaded (fst s1) = true /\ r <> _tools (fst s1) /\
            heap (snd s1) !! r = Some cache /\
            heap (snd s1) !! _tools (fst s1) = Some cache)
    as (cache & Hl1 & Hne & Hr & Hcache).
  { destruct (_loaded self) eqn:Hl.
    - destruct Hlive as [cache Hcache].
      destruct (cached_get_tools_copy rt (self, w) cache Hl Hcache)
        as (r' & s' & Hrun' & Hself & Hne & Hr & Hc).
      rewrite Hrun' in Hrun. injection Hrun as <- <-.
      exists cache. rewrite Hself. cbn [fst]. auto.
    - apply (first_get_tools_copy rt self w r s1 Hl Hrun). }
  exists cache. repeat (split; [ assumption | ]).
  cbv zeta. cbn [fst snd store heap].
  assert (Hcache' : <[r := items']> (heap (snd s1)) !! _tools (fst s1) = Some cache)
    by (rewrite lookup_insert_ne; assumption).
  split; [ exact Hcache' | ].
  intros n.
  assert (Hc : cached (fst s1, store r items' (snd s1)))
    by (split; cbn; [ exact Hl1 | rewrite Hcache'; eauto ]).
  destruct (later_calls_cached rt n _ Hc) as ((Hln & _) & Hselfn & _ & _ & Hheapn).
  cbn [fst snd store heap] in Hselfn, Hheapn. rewrite Hcache' in Hheapn.
  assert (Hheapn' :
            heap (snd (later_calls rt n (fst s1, store r items' (snd s1))))
              !! _tools (fst (later_calls rt n (fst s1, store r items' (snd s1))))
            = Some cache) by (rewrite Hselfn; exact Hheapn).
  destruct (cached_get_tools_copy rt _ cache Hln Hheapn')
    as (r2 & s2 & Hrun2 & Hself2 & Hne2 & Hr2 & Hc2).
  exists r2, s2. rewrite Hself2. auto.
Qed.

Lemma get_tools_returns_a_copy_witness :
  let s1 := snd (get_tools demo_rt (demo_self, demo_world mixed_servers)) in
  let r := 4%positive in
  exists cache,
    heap (snd s1) !! _tools (fst s1) = Some cache /\
    heap (snd s1) !! r = Some cache /\
    r <> _tools (fst s1) /\
    let s1' := (fst s1, store r [PStr "overwritten"] (snd s1)) in
    heap (snd s1') !! _tools (fst s1') = Some cache /\
    forall n, exists r2 s2,
      get_tools demo_rt (later_calls demo_rt n s1') = (Ok r2, s2) /\
      r2 <> _tools (fst s2) /\
      heap (snd s2) !! r2 = Some cache /\
      heap (snd s2) !! _tools (fst s2) = Some cache.
Proof.
  apply (get_tools_returns_a_copy demo_rt demo_self (demo_world mixed_servers)
           4%positive (snd (get_tools demo_rt (demo_self, demo_world mixed_servers)))
           [PStr "overwritten"]).
  - vm_compute. eauto.
  - vm_compute. reflexivity.
Defined.

(** ** Config resolution *)

Lemma config_fault_raises env p e :
  ConfigFault env p e -> _load_servers_from_file env p = Raise e.
Proof.
  unfold _load_servers_from_file.
  destruct 1 as [Habs | e0 Hex Hy Himp | parse text e Hex Hparser Hread Hparse
                | parse text data Hex Hparser Hread Hparse Hd Hl].
  - by rewrite Habs.
  - rewrite Hex. cbn [negb]. fold (is_yaml p). by rewrite Hy, Himp.
  - rewrite Hex. cbn [negb]. fold (is_yaml p).
    unfold config_parser in Hparser. destruct (is_yaml p).
    + rewrite Hparser, Hread. cbn. by rewrite Hparse.
    + injection Hparser as <-. rewrite Hread. cbn. by rewrite Hparse.
  - rewrite Hex. cbn [negb]. fold (is_yaml p).
    unfold config_parser in Hparser. destruct (is_yaml p).
    + rewrite Hparser, Hread. cbn. rewrite Hparse.
      destruct data; try discriminate; reflexivity.
    + injection Hparser as <-. rewrite Hread. cbn. rewrite Hparse.
      destruct data; try discriminate; reflexivity.
Qed.

Lemma init_catches env p e t w :
  _default_servers_config_path env = Some p ->
  _load_servers_from_file env p = Raise e ->
  __init__ env None t w =
    (Ok {| timeout_s := t; _tools := fresh (dom (heap w)); _loaded := false;
           servers := fresh (dom (<[fresh (dom (heap w)) := []]> (heap w))) |},
     {| heap := <[fresh (dom (<[fresh (dom (heap w)) := []]> (heap w))) := []]>
                  (<[fresh (dom (heap w)) := []]> (heap w));
        calls := calls w;
        log := (log w ++ [config_failure_record p e])%list |}).
Proof.
  intros Hpath Hload.
  unfold __init__, mbind, M_bind, alloc. cbn [heap calls log].
  rewrite Hpath, Hload. reflexivity.
Qed.

(** C4, as the code has it. When no descriptor list is passed and the
    selected config file is absent, is YAML while PyYAML is missing,
    does not parse, or has a top level that is neither a mapping nor a
    list, [_load_servers_from_file] raises the matching exception
    ([FileNotFoundError], [RuntimeError], the parser's error,
    [TypeError]); the constructor catches it, logs it with
    [logger.exception], and completes with an empty descriptor list. *)
Theorem config_fault_is_logged_not_raised env p e t w :
  _default_servers_config_path env = Some p ->
  ConfigFault env p e ->
  _load_servers_from_file env p = Raise e /\
  exists self w1,
    __init__ env None t w = (Ok self, w1) /\
    heap w1 !! servers self = Some [] /\
    _loaded self = false /\
    log w1 = (log w ++ [config_failure_record p e])%list.
Proof.
  intros Hpath Hfault.
  pose proof (config_fault_raises env p e Hfault) as Hload.
  split; [ exact Hload | ].
  eexists _, _. split; [ apply (init_catches env p e t w Hpath Hload) | ].
  cbn. rewrite lookup_insert_eq. auto.
Qed.

Lemma config_fault_is_logged_not_raised_witness :
  _load_servers_from_file missing_env "/etc/mcp/servers.json"
    = Raise (FileNotFoundError ("MCP servers config not found: " +:+ "/etc/mcp/servers.json")) /\
  exists self w1,
    __init__ missing_env None ten_seconds empty_world = (Ok self, w1) /\
    heap w1 !! servers self = Some [] /\
    _loaded self = false /\
    log w1 = (log empty_world
              ++ [config_failure_record "/etc/mcp/servers.json"
                    (FileNotFoundError ("MCP servers config not found: "
                                        +:+ "/etc/mcp/servers.json"))])%list.
Proof.
  apply (config_fault_is_logged_not_raised missing_env "/etc/mcp/servers.json"
           (FileNotFoundError ("MCP servers config not found: " +:+ "/etc/mcp/servers.json"))
           ten_seconds empty_world).
  - reflexivity.
  - apply Fault_absent. reflexivity.
Defined.

(** C4, as stated, fails: with [MCP_SERVERS_PATH] naming an absent
    file, [_load_servers_from_file] raises [FileNotFoundError], yet the
    constructor returns a connector. *)
Lemma missing_config_does_not_reach_caller :
  ~ config_errors_reach_caller missing_env ten_seconds empty_world.
Proof.
  intros Hclaim.
  specialize (Hclaim "/etc/mcp/servers.json"
                (FileNotFoundError ("MCP servers config not found: "
                                    +:+ "/etc/mcp/servers.json"))
                eq_refl eq_refl).
  vm_compute in Hclaim. discriminate Hclaim.
Qed.

(** C6. With an explicit list, the constructor stores the address it is
    given: the connector's descriptors are that very list object, with
    its elements as they are. The host environment plays no part in the
    result, so no path is resolved and no file is read or parsed,
    whatever config files exist; nothing is logged. *)
Theorem explicit_servers_take_precedence env l t w :
  __init__ env (Some l) t w =
    (Ok {| timeout_s := t; _tools := fresh (dom (heap w)); _loaded := false;
           servers := l |},
     store (fresh (dom (heap w))) [] w) /\
  heap (store (fresh (dom (heap w))) [] w) !!! l = heap w !!! l /\
  forall env', __init__ env' (Some l) t w = __init__ env (Some l) t w.
Proof.
  split; [ reflexivity | ].
  split; [ apply lookup_total_alloc | reflexivity ].
Qed.

(** C7. When path resolution finds no config file and no list is
    passed, the constructor returns a connector whose descriptor list is
    empty, after one warning. Its [get_tools] then returns an empty
    list; it calls the toolkit not at all and logs nothing: there is no
    skip record and no summary. *)
Theorem no_config_gives_empty_connector env rt t w :
  _default_servers_config_path env = None ->
  exists self w1,
    __init__ env None t w = (Ok self, w1) /\
    heap w1 !! servers self = Some [] /\
    log w1 = (log w ++ [no_config_record])%list /\
    exists r s2,
      get_tools rt (self, w1) = (Ok r, s2) /\
      heap (snd s2) !! r = Some [] /\
      calls (snd s2) = calls w /\
      log (snd s2) = log w1 /\
      outcomes rt t (calls w1) (heap w1 !!! servers self) = Some ([], calls w).
Proof.
  intros Hnone.
  eexists _, _. split.
  { unfold __init__, mbind, M_bind, alloc, logger_warning, emit. cbn [heap calls log].
    rewrite Hnone. reflexivity. }
  cbn [servers heap log]. rewrite lookup_insert_eq.
  split; [ reflexivity | ]. split; [ reflexivity | ].
  eexists _, _. split.
  { eapply (get_tools_first rt _ _ [] (calls w)); [ reflexivity | ].
    cbn [servers heap calls]. rewrite lookup_total_insert_eq. constructor. }
  cbn. rewrite lookup_insert_eq, lookup_total_insert_eq, app_nil_r. auto.
Qed.

Lemma no_config_gives_empty_connector_witness :
  exists self w1,
    __init__ bare_env None ten_seconds empty_world = (Ok self, w1) /\
    heap w1 !! servers self = Some [] /\
    log w1 = (log empty_world ++ [no_config_record])%list /\
    exists r s2,
      get_tools demo_rt (self, w1) = (Ok r, s2) /\
      heap (snd s2) !! r = Some [] /\
      calls (snd s2) = calls empty_world /\
      log (snd s2) = log w1 /\
      outcomes demo_rt ten_seconds (calls w1) (heap w1 !!! servers self)
        = Some ([], calls empty_world).
Proof.
  apply (no_config_gives_empty_connector bare_env demo_rt ten_seconds empty_world).
  reflexivity.
Defined.

(** ** The recognised keys *)

Lemma load_servers_from_mapping env p text d :
  path_exists env p = true ->
  is_yaml p = false ->
  read_text env p = Ok text ->
  json_loads env text = Ok (PDict d) ->
  _load_servers_from_file env p =
    match py_or (py_or (dict_get d "servers" PNone) (dict_get d "mcpServers" PNone))
                (dict_get d "mcp_servers" PNone) with
    | PNone => Raise (ValueError ("No 'servers' key found in " +:+ p))
    | PList l => Ok l
    | _ => Raise (TypeError ("'servers' must be a list in " +:+ p))
    end.
Proof.
  intros Hex Hy Hread Hparse. unfold _load_servers_from_file.
  rewrite Hex. cbn [negb]. fold (is_yaml p). rewrite Hy, Hread. cbn [res_bind].
  rewrite Hparse. reflexivity.
Qed.

(** A non-empty list under [servers] is what the file yields, whatever
    the other keys hold. *)
Lemma servers_key_wins_when_nonempty env p text d x l :
  path_exists env p = true ->
  is_yaml p = false ->
  read_text env p = Ok text ->
  json_loads env text = Ok (PDict d) ->
  dict_get d "servers" PNone = PList (x :: l) ->
  _load_servers_from_file env p = Ok (x :: l).
Proof.
  intros Hex Hy Hread Hparse Hs.
  rewrite (load_servers_from_mapping env p text d Hex Hy Hread Hparse), Hs.
  reflexivity.
Qed.

(** Without [servers], a non-empty list under [mcpServers] is what the
    file yields. *)
Lemma mcpServers_key_used_when_servers_absent env p text d x l :
  path_exists env p = true ->
  is_yaml p = false ->
  read_text env p = Ok text ->
  json_loads env text = Ok (PDict d) ->
  dict_get d "servers" PNone = PNone ->
  dict_get d "mcpServers" PNone = PList (x :: l) ->
  _load_servers_from_file env p = Ok (x :: l).
Proof.
  intros Hex Hy Hread Hparse Hs Hm.
  rewrite (load_servers_from_mapping env p text d Hex Hy Hread Hparse), Hs, Hm.
  reflexivity.
Qed.

(** C5. The descriptor list should come from the first key present among
    [servers], [mcpServers], [mcp_servers], whatever its value. The code
    chains the three lookups with [or], which passes over a value that
    is falsy: with an empty list under [servers] and one server under
    [mcpServers], the file yields the [mcpServers] list, not the empty
    [servers] list; and a file whose only key is [mcpServers] with an
    empty list is rejected as having no key at all. *)
Theorem empty_servers_value_is_passed_over :
  _load_servers_from_file
    (file_env (PDict [(PStr "servers", PList []);
                      (PStr "mcpServers", PList [server "alpha"])]))
    "/srv/app/mcp_servers.json" = Ok [server "alpha"] /\
  _load_servers_from_file
    (file_env (PDict [(PStr "mcpServers", PList [])]))
    "/srv/app/mcp_servers.json"
    = Raise (ValueError "No 'servers' key found in /srv/app/mcp_servers.json").
Proof. split; reflexivity. Qed.

(** ** Path resolution *)

Lemma default_path_from_env env c rest :
  env_or (getenv env "MCP_SERVERS_PATH") (getenv env "MCP_CONFIG_PATH")
    = Some (String c rest) ->
  _default_servers_config_path env = Some (String c rest).
Proof. intros H. unfold _default_servers_config_path. by rewrite H. Qed.

Lemma default_path_none env :
  env_or (getenv env "MCP_SERVERS_PATH") (getenv env "MCP_CONFIG_PATH") = None ->
  forallb (fun p => negb (path_exists env p)) (candidates (_repo_root env)) = true ->
  _default_servers_config_path env = None.
Proof.
  intros Henv Hcand. unfold _default_servers_config_path. rewrite Henv.
  induction (candidates (_repo_root env)) as [ | p ps IH]; [ reflexivity | ].
  cbn [forallb] in Hcand. apply andb_prop in Hcand as [Hp Hps].
  cbn [List.find]. destruct (path_exists env p); [ discriminate Hp | auto ].
Qed.

(** * Further properties of the code *)

(** ** Path resolution *)

Lemma find_split {A} (f : A -> bool) (l : list A) (x : A) :
  List.find f l = Some x <->
  exists pre post, l = (pre ++ x :: post)%list /\ forallb (fun y => negb (f y)) pre = true
                   /\ f x = true.
Proof.
  split.
  - induction l as [ | y l IH]; simpl; [ discriminate | ].
    destruct (f y) eqn:Hy.
    + intros [= ->]. exists [], l. auto.
    + intros Hfind. destruct (IH Hfind) as (pre & post & -> & Hpre & Hx).
      exists (y :: pre), post. simpl. rewrite Hy. auto.
  - intros (pre & post & -> & Hpre & Hx).
    induction pre as [ | y pre IH]; simpl in *.
    + by rewrite Hx.
    + apply andb_prop in Hpre as [Hy Hpre]. destruct (f y); [ discriminate Hy | auto ].
Qed.

Lemma find_none {A} (f : A -> bool) (l : list A) :
  List.find f l = None <-> forallb (fun y => negb (f y)) l = true.
Proof.
  induction l as [ | y l IH]; simpl; [ tauto | ].
  destruct (f y); simpl; [ split; discriminate | exact IH ].
Qed.

Lemma env_or_unset a b :
  unset_or_empty a = true -> env_or a b = b.
Proof.
  destruct a as [s | ]; simpl; [ | reflexivity ].
  intros Hs. by rewrite Hs.
Qed.

(** X1. A non-empty [MCP_SERVERS_PATH] is the resolved path in every
    state of the file system, whether or not the file it names exists
    and whatever [MCP_CONFIG_PATH] and the candidate files are. When
    the file it names is absent, the constructor ends with an empty
    descriptor list and one error record that carries the
    [FileNotFoundError], even if a loadable config sits at a candidate
    location: the variable shadows the candidates. *)
Theorem servers_path_variable_shadows_candidates env c rest t w :
  getenv env "MCP_SERVERS_PATH" = Some (String c rest) ->
  (forall exists', _default_servers_config_path
     {| getenv := getenv env; repo_root := repo_root env; path_exists := exists';
        read_text := read_text env; import_yaml := import_yaml env;
        json_loads := json_loads env |} = Some (String c rest)) /\
  (path_exists env (String c rest) = false ->
   exists self w1 rec m,
     __init__ env None t w = (Ok self, w1) /\
     heap w1 !! servers self = Some [] /\
     log w1 = (log w ++ [rec])%list /\
     level rec = ERROR /\
     exc_info rec = Some (FileNotFoundError m)).
Proof.
  intros Hvar. split.
  - intros exists'. unfold _default_servers_config_path. cbn [getenv].
    rewrite Hvar. reflexivity.
  - intros Habs.
    assert (Hpath : _default_servers_config_path env = Some (String c rest)).
    { unfold _default_servers_config_path. rewrite Hvar. reflexivity. }
    eexists _, _, _, _. split.
    + apply (init_catches env (String c rest)
               (FileNotFoundError ("MCP servers config not found: " +:+ String c rest))
               t w Hpath).
      unfold _load_servers_from_file. by rewrite Habs.
    + cbn. rewrite lookup_insert_eq. auto.
Qed.

Lemma servers_path_variable_shadows_candidates_witness :
  (forall exists', _default_servers_config_path
     {| getenv := getenv shadowed_env; repo_root := repo_root shadowed_env;
        path_exists := exists';
        read_text := read_text shadowed_env; import_yaml := import_yaml shadowed_env;
        json_loads := json_loads shadowed_env |} = Some "/etc/mcp/servers.json") /\
  (path_exists shadowed_env "/etc/mcp/servers.json" = false ->
   exists self w1 rec m,
     __init__ shadowed_env None ten_seconds empty_world = (Ok self, w1) /\
     heap w1 !! servers self = Some [] /\
     log w1 = (log empty_world ++ [rec])%list /\
     level rec = ERROR /\
     exc_info rec = Some (FileNotFoundError m)).
Proof.
  apply (servers_path_variable_shadows_candidates shadowed_env
           "/" "etc/mcp/servers.json" ten_seconds empty_world); reflexivity.
Defined.

(** X2. When [MCP_SERVERS_PATH] is unset or empty, a non-empty
    [MCP_CONFIG_PATH] is the resolved path, again without a look at the
    file system. *)
Theorem config_path_variable_is_the_fallback env c rest :
  unset_or_empty (getenv env "MCP_SERVERS_PATH") = true ->
  getenv env "MCP_CONFIG_PATH" = Some (String c rest) ->
  _default_servers_config_path env = Some (String c rest) /\
  forall exists', _default_servers_config_path
    {| getenv := getenv env; repo_root := repo_root env; path_exists := exists';
       read_text := read_text env; import_yaml := import_yaml env;
       json_loads := json_loads env |} = Some (String c rest).
Proof.
  intros Hs Hc. unfold _default_servers_config_path. cbn [getenv].
  rewrite (env_or_unset _ _ Hs), Hc. auto.
Qed.

Lemma config_path_variable_is_the_fallback_witness :
  _default_servers_config_path fallback_env = Some "/etc/mcp.yaml" /\
  forall exists', _default_servers_config_path
    {| getenv := getenv fallback_env; repo_root := repo_root fallback_env;
       path_exists := exists';
       read_text := read_text fallback_env; import_yaml := import_yaml fallback_env;
       json_loads := json_loads fallback_env |} = Some "/etc/mcp.yaml".
Proof.
  apply (config_path_variable_is_the_fallback fallback_env "/" "etc/mcp.yaml");
    reflexivity.
Defined.

(** X3. When both variables are unset or empty, the resolved path is
    the first candidate that exists: [p] is resolved exactly when the
    candidate list splits into candidates that do not exist, then [p],
    which does. *)
Theorem first_existing_candidate_is_resolved env p :
  unset_or_empty (getenv env "MCP_SERVERS_PATH") = true ->
  unset_or_empty (getenv env "MCP_CONFIG_PATH") = true ->
  (_default_servers_config_path env = Some p <->
   exists pre post,
     candidates (_repo_root env) = (pre ++ p :: post)%list /\
     forallb (fun q => negb (path_exists env q)) pre = true /\
     path_exists env p = true).
Proof.
  intros Hs Hc. unfold _default_servers_config_path.
  rewrite (env_or_unset _ _ Hs).
  destruct (getenv env "MCP_CONFIG_PATH") as [[ | c rest] | ];
    try discriminate Hc; apply find_split.
Qed.

Lemma first_existing_candidate_is_resolved_witness :
  _default_servers_config_path nested_env = Some "/srv/app/configs/mcp_servers.yaml" <->
  exists pre post,
    candidates (_repo_root nested_env)
      = (pre ++ "/srv/app/configs/mcp_servers.yaml" :: post)%list /\
    forallb (fun q => negb (path_exists nested_env q)) pre = true /\
    path_exists nested_env "/srv/app/configs/mcp_servers.yaml" = true.
Proof.
  apply (first_existing_candidate_is_resolved nested_env
           "/srv/app/configs/mcp_servers.yaml"); reflexivity.
Defined.

(** X4. No path is resolved exactly when both variables are unset or
    empty and none of the nine candidates exists. *)
Theorem no_path_iff_nothing_set_and_nothing_there env :
  _default_servers_config_path env = None <->
  unset_or_empty (getenv env "MCP_SERVERS_PATH") = true /\
  unset_or_empty (getenv env "MCP_CONFIG_PATH") = true /\
  forallb (fun q => negb (path_exists env q)) (candidates (_repo_root env)) = true.
Proof.
  unfold _default_servers_config_path, env_or, unset_or_empty.
  destruct (getenv env "MCP_SERVERS_PATH") as [[ | c1 r1] | ];
    destruct (getenv env "MCP_CONFIG_PATH") as [[ | c2 r2] | ]; cbn [String.eqb];
    rewrite ?find_none;
    first [ tauto
          | split; [ discriminate | intros H; destruct H as (H1 & H2 & H3) ];
            first [ discriminate H1 | discriminate H2 ] ].
Qed.

(** ** The format of a config file *)

Lemma last_component_joinpath a : forall acc b,
  last_component acc (joinpath a b) = last_component EmptyString b.
Proof.
  unfold joinpath.
  induction a as [ | c a IH]; intros acc b; [ reflexivity | ].
  change (String c a +:+ "/" +:+ b) with (String c (a +:+ "/" +:+ b)).
  cbn [last_component]. destruct (Ascii.eqb c "/"); apply IH.
Qed.

Lemma suffix_joinpath a b : suffix (joinpath a b) = suffix b.
Proof. unfold suffix. by rewrite last_component_joinpath. Qed.

Lemma is_yaml_joinpath a b : is_yaml (joinpath a b) = is_yaml b.
Proof. unfold is_yaml. by rewrite suffix_joinpath. Qed.

(** X5. Whatever the repo root, even one with dots or upper-case
    letters in it, the candidates are read in the format of their file
    name: the three [mcp_servers.json] with [json.loads], the six
    [mcp_servers.yaml] and [mcp_servers.yml] with PyYAML. *)
Theorem candidates_are_parsed_by_their_file_name root :
  map is_yaml (candidates root)
  = [false; true; true; false; true; true; false; true; true].
Proof.
  unfold candidates. cbn [map]. rewrite !is_yaml_joinpath. reflexivity.
Qed.

(** X6. The parser that the suffix does not select is never consulted:
    a file without a YAML suffix loads the same whatever [import yaml]
    does, so a JSON config needs no PyYAML, and a YAML file loads the
    same whatever [json.loads] would do. *)
Theorem unselected_parser_is_not_consulted env p y j :
  _load_servers_from_file
    (if is_yaml p then with_json_loads env j else with_import_yaml env y) p
  = _load_servers_from_file env p.
Proof.
  unfold _load_servers_from_file. fold (is_yaml p).
  destruct (is_yaml p) eqn:Hy; cbn [path_exists read_text import_yaml json_loads
                                     with_json_loads with_import_yaml];
    reflexivity.
Qed.

(** X7. [_load_servers_from_file] returns a list exactly when the file
    exists, the selected parser is available, the text can be read and
    parses, and the parsed value is that list itself or a mapping in
    which the chain of [or] over [servers], [mcpServers], [mcp_servers]
    selects that list. The elements of the list are not inspected. *)
Theorem load_returns_iff env p ds :
  _load_servers_from_file env p = Ok ds <->
  path_exists env p = true /\
  exists parse text data,
    config_parser env p = Ok parse /\
    read_text env p = Ok text /\
    parse text = Ok data /\
    (data = PList ds \/ exists d, data = PDict d /\ selected_value d = PList ds).
Proof.
  unfold _load_servers_from_file, config_parser. fold (is_yaml p).
  split.
  - destruct (path_exists env p); [ | discriminate ]. cbn [negb].
    intros Hload. split; [ reflexivity | ].
    assert (Hdata : forall data,
              match data with
              | PDict d =>
                  match selected_value d with
                  | PNone => Raise (ValueError ("No 'servers' key found in " +:+ p))
                  | PList l => Ok l
                  | _ => Raise (TypeError ("'servers' must be a list in " +:+ p))
                  end
              | PList l => Ok l
              | _ => Raise (TypeError ("Unsupported config format in " +:+ p
                                       +:+ ": expected dict or list"))
              end = Ok ds ->
              data = PList ds \/ exists d, data = PDict d /\ selected_value d = PList ds).
    { intros [ | | | | | l | d | ]; try discriminate.
      - intros [= ->]. by left.
      - intros Hd. right. exists d. split; [ reflexivity | ].
        destruct (selected_value d); try discriminate Hd. by injection Hd as ->. }
    destruct (is_yaml p).
    + destruct (import_yaml env) as [safe_load | e0]; [ | discriminate Hload ].
      destruct (read_text env p) as [text | e1]; [ | discriminate Hload ].
      cbn [res_bind] in Hload.
      destruct (safe_load text) as [data | e2] eqn:Hparse; [ | discriminate Hload ].
      exists safe_load, text, data. repeat split; auto.
    + destruct (read_text env p) as [text | e1]; [ | discriminate Hload ].
      cbn [res_bind] in Hload.
      destruct (json_loads env text) as [data | e2] eqn:Hparse; [ | discriminate Hload ].
      exists (json_loads env), text, data. repeat split; auto.
  - intros (Hex & parse & text & data & Hparser & Hread & Hparse & Hdata).
    rewrite Hex. cbn [negb].
    assert (Hres : res_bind (Ok data)
              (fun data =>
                 match data with
                 | PDict d =>
                     match selected_value d with
                     | PNone => Raise (ValueError ("No 'servers' key found in " +:+ p))
                     | PList l => Ok l
                     | _ => Raise (TypeError ("'servers' must be a list in " +:+ p))
                     end
                 | PList l => Ok l
                 | _ => Raise (TypeError ("Unsupported config format in " +:+ p
                                          +:+ ": expected dict or list"))
                 end) = Ok ds).
    { destruct Hdata as [-> | (d & -> & Hsel)]; cbn; [ reflexivity | by rewrite Hsel ]. }
    destruct (is_yaml p).
    + rewrite Hparser, Hread. cbn [res_bind]. rewrite Hparse. exact Hres.
    + injection Hparser as <-. rewrite Hread. cbn [res_bind]. rewrite Hparse. exact Hres.
Qed.

(** X8. A truthy value under [servers] that is not a list makes the
    load fail with [TypeError], also when [mcpServers] or [mcp_servers]
    holds a well-formed list: the later keys are not tried. *)
Theorem non_list_servers_value_is_a_type_error env p parse text d :
  path_exists env p = true ->
  config_parser env p = Ok parse ->
  read_text env p = Ok text ->
  parse text = Ok (PDict d) ->
  truthy (dict_get d "servers" PNone) = true ->
  is_list (dict_get d "servers" PNone) = false ->
  _load_servers_from_file env p = Raise (TypeError ("'servers' must be a list in " +:+ p)).
Proof.
  intros Hex Hparser Hread Hparse Htruthy Hlist.
  unfold _load_servers_from_file, config_parser in *. fold (is_yaml p) in *.
  rewrite Hex. cbn [negb].
  assert (Hsel : py_or (py_or (dict_get d "servers" PNone) (dict_get d "mcpServers" PNone))
                       (dict_get d "mcp_servers" PNone) = dict_get d "servers" PNone).
  { unfold py_or. by rewrite Htruthy, Htruthy. }
  destruct (is_yaml p).
  - rewrite Hparser, Hread. cbn [res_bind]. rewrite Hparse. cbn [res_bind].
    rewrite Hsel. destruct (dict_get d "servers" PNone); try discriminate; reflexivity.
  - injection Hparser as <-. rewrite Hread. cbn [res_bind]. rewrite Hparse.
    cbn [res_bind]. rewrite Hsel.
    destruct (dict_get d "servers" PNone); try discriminate; reflexivity.
Qed.

Lemma non_list_servers_value_is_a_type_error_witness :
  _load_servers_from_file
    (file_env (PDict [(PStr "servers", PStr "alpha");
                      (PStr "mcpServers", PList [server "alpha"])]))
    "/srv/app/mcp_servers.json"
  = Raise (TypeError ("'servers' must be a list in " +:+ "/srv/app/mcp_servers.json")).
Proof.
  apply (non_list_servers_value_is_a_type_error
           (file_env (PDict [(PStr "servers", PStr "alpha");
                             (PStr "mcpServers", PList [server "alpha"])]))
           "/srv/app/mcp_servers.json"
           (json_loads (file_env (PDict [(PStr "servers", PStr "alpha");
                                         (PStr "mcpServers", PList [server "alpha"])])))
           "<config text>"
           [(PStr "servers", PStr "alpha"); (PStr "mcpServers", PList [server "alpha"])]);
    reflexivity.
Defined.

(** ** The constructor *)

(** In the model the constructor returns for every host; what it
    returns is described once here. *)
Lemma constructor_result env servers_arg t w :
  (forall l, servers_arg = Some l -> is_Some (heap w !! l)) ->
  exists self w1,
    __init__ env servers_arg t w = (Ok self, w1) /\
    timeout_s self = t /\ _loaded self = false /\
    heap w !! _tools self = None /\
    heap w1 !! _tools self = Some [] /\
    is_Some (heap w1 !! servers self) /\
    _tools self <> servers self /\
    (forall b, is_Some (heap w !! b) -> heap w1 !! b = heap w !! b) /\
    calls w1 = calls w /\
    (forall l, servers_arg = Some l -> servers self = l /\ log w1 = log w).
Proof.
  intros Hlive.
  assert (Hfresh2 : forall items : list pyval,
            fresh (dom (<[fresh (dom (heap w)) := items]> (heap w))) <> fresh (dom (heap w)))
    by (intros items; apply fresh_ne; rewrite lookup_insert_eq; eauto).
  assert (Hframe1 : forall (items : list pyval) b,
            is_Some (heap w !! b) ->
            <[fresh (dom (heap w)) := items]> (heap w) !! b = heap w !! b)
    by (intros items b Hb; apply lookup_insert_ne, fresh_ne, Hb).
  assert (Hframe2 : forall (items items' : list pyval) b,
            is_Some (heap w !! b) ->
            <[fresh (dom (<[fresh (dom (heap w)) := items]> (heap w))) := items']>
              (<[fresh (dom (heap w)) := items]> (heap w)) !! b = heap w !! b).
  { intros items items' b Hb. rewrite lookup_insert_ne; [ by apply Hframe1 | ].
    apply fresh_ne. rewrite Hframe1 by done. exact Hb. }
  assert (Hcache2 : forall items' : list pyval,
            <[fresh (dom (<[fresh (dom (heap w)) := []]> (heap w))) := items']>
              (<[fresh (dom (heap w)) := []]> (heap w)) !! fresh (dom (heap w)) = Some [])
    by (intros items'; rewrite lookup_insert_ne by apply Hfresh2; apply lookup_insert_eq).
  unfold __init__, mbind, M_bind, mret, M_ret, alloc, logger_warning, logger_info,
    logger_exception, emit. cbn [heap calls log].
  destruct servers_arg as [l | ];
    [ destruct (Hlive l eq_refl) as [items Hl]
    | destruct (_default_servers_config_path env) as [p | ];
      [ destruct (_load_servers_from_file env p) as [ds | e] | ] ];
    (eexists _, _; split; [ reflexivity | ]; cbn; split_and!);
    first
      [ reflexivity
      | apply fresh_lookup
      | apply lookup_insert_eq
      | apply Hcache2
      | solve [ rewrite lookup_insert_eq; eauto ]
      | solve [ rewrite Hframe1 by eauto; eauto ]
      | apply not_eq_sym, Hfresh2
      | solve [ apply fresh_ne; eauto ]
      | (intros b Hb; first [ apply Hframe2, Hb | apply Hframe1, Hb ])
      | (intros l0 Hl0; discriminate Hl0)
      | (intros l0 Hl0; injection Hl0 as <-; auto) ].
Qed.

(** X9. A connector that the constructor returns carries the timeout
    it was given, is not loaded, and owns a new, empty cache list that
    is a different object from its descriptor list; no list that
    existed before is changed and the toolkit has not been called. With
    an explicit list, that list is the descriptor list and nothing has
    been logged. *)
Theorem constructor_postconditions env servers_arg t w self w1 :
  (forall l, servers_arg = Some l -> is_Some (heap w !! l)) ->
  __init__ env servers_arg t w = (Ok self, w1) ->
  timeout_s self = t /\ _loaded self = false /\
  heap w !! _tools self = None /\
  heap w1 !! _tools self = Some [] /\
  is_Some (heap w1 !! servers self) /\
  _tools self <> servers self /\
  (forall b, is_Some (heap w !! b) -> heap w1 !! b = heap w !! b) /\
  calls w1 = calls w /\
  (forall l, servers_arg = Some l -> servers self = l /\ log w1 = log w).
Proof.
  intros Hlive Hrun.
  destruct (constructor_result env servers_arg t w Hlive) as (self' & w1' & Hrun' & Hpost).
  rewrite Hrun' in Hrun. injection Hrun as <- <-. exact Hpost.
Qed.

Lemma constructor_postconditions_witness :
  (let self := {| timeout_s := ten_seconds; _tools := 3%positive; _loaded := false;
                  servers := 1%positive |} in
   let w := demo_world mixed_servers in
   let w1 := snd (__init__ bare_env (Some 1%positive) ten_seconds w) in
   timeout_s self = ten_seconds /\ _loaded self = false /\
   heap w !! _tools self = None /\
   heap w1 !! _tools self = Some [] /\
   is_Some (heap w1 !! servers self) /\
   _tools self <> servers self /\
   (forall b, is_Some (heap w !! b) -> heap w1 !! b = heap w !! b) /\
   calls w1 = calls w /\
   (forall l, Some 1%positive = Some l -> servers self = l /\ log w1 = log w)) /\
  (let self := {| timeout_s := ten_seconds; _tools := 1%positive; _loaded := false;
                  servers := 2%positive |} in
   let w := empty_world in
   let w1 := snd (__init__ (file_env (PList [server "alpha"])) None ten_seconds w) in
   timeout_s self = ten_seconds /\ _loaded self = false /\
   heap w !! _tools self = None /\
   heap w1 !! _tools self = Some [] /\
   is_Some (heap w1 !! servers self) /\
   _tools self <> servers self /\
   (forall b, is_Some (heap w !! b) -> heap w1 !! b = heap w !! b) /\
   calls w1 = calls w /\
   (forall l, None = Some l -> servers self = l /\ log w1 = log w)).
Proof.
  split.
  - apply (constructor_postconditions bare_env (Some 1%positive) ten_seconds
             (demo_world mixed_servers)).
    + intros l [= <-]. vm_compute. eauto.
    + vm_compute. reflexivity.
  - apply (constructor_postconditions (file_env (PList [server "alpha"])) None ten_seconds
             empty_world).
    + intros l Hl. discriminate Hl.
    + vm_compute. reflexivity.
Defined.

(** X10. When the resolved file loads, its list becomes the descriptor
    list of the connector, as a new list object, and one INFO record
    reports the path and the number of descriptors. *)
Theorem loaded_config_becomes_the_descriptor_list env p ds t w :
  _default_servers_config_path env = Some p ->
  _load_servers_from_file env p = Ok ds ->
  exists self w1,
    __init__ env None t w = (Ok self, w1) /\
    heap w1 !! servers self = Some ds /\
    heap w !! servers self = None /\
    log w1 = (log w ++ [config_loaded_record p (length ds)])%list.
Proof.
  intros Hpath Hload.
  unfold __init__, mbind, M_bind, mret, M_ret, alloc, logger_info, emit.
  cbn [heap calls log]. rewrite Hpath, Hload.
  eexists _, _. split; [ reflexivity | ]. cbn.
  rewrite lookup_insert_eq. repeat split.
  pose proof (fresh_lookup (<[fresh (dom (heap w)) := []]> (heap w))) as Hnew.
  rewrite lookup_insert_ne in Hnew; [ exact Hnew | ].
  apply not_eq_sym, fresh_ne. rewrite lookup_insert_eq. eauto.
Qed.

Lemma loaded_config_becomes_the_descriptor_list_witness :
  exists self w1,
    __init__ (file_env (PList [server "alpha"; PInt 7])) None ten_seconds empty_world
      = (Ok self, w1) /\
    heap w1 !! servers self = Some [server "alpha"; PInt 7] /\
    heap empty_world !! servers self = None /\
    log w1 = (log empty_world
              ++ [config_loaded_record "/srv/app/mcp_servers.json"
                    (length [server "alpha"; PInt 7])])%list.
Proof.
  apply (loaded_config_becomes_the_descriptor_list
           (file_env (PList [server "alpha"; PInt 7])) "/srv/app/mcp_servers.json"
           [server "alpha"; PInt 7] ten_seconds empty_world); reflexivity.
Defined.

(** ** What [get_tools] leaves alone *)

Lemma load_all_tools_frame rt self w res s' :
  _load_all_tools rt (self, w) = (res, s') ->
  timeout_s (fst s') = timeout_s self /\ servers (fst s') = servers self /\
  forall b, is_Some (heap w !! b) -> heap (snd s') !! b = heap w !! b.
Proof.
  intros Hrun.
  unfold _load_all_tools, mbind, M_bind, get_self in Hrun. cbn [fst snd] in Hrun.
  destruct (_loaded self); [ injection Hrun as _ <-; cbn; split_and!; auto | ].
  unfold in_world at 1 2, alloc, read_list in Hrun. cbn [fst snd heap calls log] in Hrun.
  match type of Hrun with
  | context [load_loop ?rt' ?a ?f ?cfgs ?s] =>
      destruct (load_loop rt' a f cfgs s) as [res1 s1] eqn:Hloop
  end.
  eapply load_loop_frame in Hloop; [ | apply lookup_insert_eq ].
  destruct Hloop as (Hself & Hother & _). cbn [heap] in Hother.
  assert (Hframe : forall b, is_Some (heap w !! b) -> heap (snd s1) !! b = heap w !! b).
  { intros b Hb. rewrite Hother by (apply not_eq_sym, fresh_ne, Hb).
    apply lookup_insert_ne, fresh_ne, Hb. }
  destruct s1 as [self1 w1]. cbn [fst snd] in *. subst self1.
  destruct res1 as [failures | e];
    [ | injection Hrun as _ <-; cbn; split_and!; auto ].
  unfold set_tools, set_loaded, mret, M_ret, in_world, logger_warning, emit in Hrun.
  destruct failures; cbn in Hrun; injection Hrun as _ <-; cbn; split_and!; auto.
Qed.

Lemma get_tools_frame rt self w :
  let s1 := snd (get_tools rt (self, w)) in
  timeout_s (fst s1) = timeout_s self /\ servers (fst s1) = servers self /\
  forall b, is_Some (heap w !! b) -> heap (snd s1) !! b = heap w !! b.
Proof.
  unfold get_tools, mbind, M_bind.
  destruct (_load_all_tools rt (self, w)) as [res [self1 w1]] eqn:Hrun.
  pose proof (load_all_tools_frame rt self w _ _ Hrun) as Hload.
  destruct res as [[] | e]; cbn [fst snd] in *; [ | exact Hload ].
  destruct Hload as (Ht & Hs & Hframe).
  unfold get_self, in_world, read_list, alloc. cbn.
  repeat split; auto.
  intros b Hb. rewrite lookup_insert_ne; [ by apply Hframe | ].
  apply fresh_ne. rewrite Hframe by done. exact Hb.
Qed.

(** X11. Whether it returns or raises, [get_tools] changes neither the
    timeout nor the descriptor-list attribute, and it changes no list
    that existed before the call: not the descriptor list, not the
    list that was the cache, not a list returned earlier. *)
Theorem get_tools_changes_no_existing_list rt self w :
  let s1 := snd (get_tools rt (self, w)) in
  timeout_s (fst s1) = timeout_s self /\ servers (fst s1) = servers self /\
  forall b, is_Some (heap w !! b) -> heap (snd s1) !! b = heap w !! b.
Proof. apply get_tools_frame. Qed.

Lemma get_tools_changes_no_existing_list_witness :
  let s1 := snd (get_tools demo_rt (demo_self, demo_world malformed_servers)) in
  timeout_s (fst s1) = timeout_s demo_self /\ servers (fst s1) = servers demo_self /\
  forall b, is_Some (heap (demo_world malformed_servers) !! b) ->
            heap (snd s1) !! b = heap (demo_world malformed_servers) !! b.
Proof.
  apply (get_tools_changes_no_existing_list demo_rt demo_self
           (demo_world malformed_servers)).
Defined.

(** ** The calls of a pass *)

Lemma built_app h1 h2 : built (h1 ++ h2) = (built h1 ++ built h2)%list.
Proof. unfold built. apply flat_map_app. Qed.

Lemma timeouts_app h1 h2 : timeouts (h1 ++ h2) = (timeouts h1 ++ timeouts h2)%list.
Proof. unfold timeouts. apply flat_map_app. Qed.

Lemma attempt_events rt t h cfg o evs :
  attempt rt t h cfg = (o, evs) ->
  built evs = [cfg] /\ Forall (fun t' => t' = t) (timeouts evs).
Proof.
  unfold attempt. destruct (_build_toolset rt h cfg) as [ts | e].
  - destruct (wait_for_get_tools _ _ _ _); intros [= <- <-]; cbn; auto.
  - intros [= <- <-]; cbn; auto.
Qed.

Lemma Outcomes_events rt t h cfgs outs h' :
  Outcomes rt t h cfgs outs h' ->
  exists evs, h' = (h ++ evs)%list /\ built evs = cfgs /\
              Forall (fun t' => t' = t) (timeouts evs).
Proof.
  induction 1 as [h | h d cfgs o evs outs h' Hatt Hrest (evs' & -> & Hb & Ht)].
  - exists []. rewrite app_nil_r. cbn. auto.
  - destruct (attempt_events _ _ _ _ _ _ Hatt) as [Hb1 Ht1].
    exists (evs ++ evs')%list. rewrite app_assoc, built_app, timeouts_app, Hb1, Hb.
    repeat split; auto. apply Forall_app; auto.
Qed.

(** X12. A first [get_tools] that returns has only added calls to the
    history: the factory was called with each descriptor of the list,
    once and in list order, and every [wait_for] was given the
    connector's own timeout. *)
Theorem factory_is_called_in_descriptor_order rt self w r s1 :
  _loaded self = false ->
  get_tools rt (self, w) = (Ok r, s1) ->
  exists evs,
    calls (snd s1) = (calls w ++ evs)%list /\
    built evs = heap w !!! servers self /\
    Forall (fun t' => t' = timeout_s self) (timeouts evs).
Proof.
  intros Hl Hrun.
  destruct (get_tools_first_inv rt self w r s1 Hl Hrun) as (outs & h' & Houts).
  pose proof (outcomes_sound _ _ _ _ _ _ Houts) as Hrel.
  pose proof (get_tools_first rt self w outs h' Hl Hrel) as Hfirst. cbv zeta in Hfirst.
  rewrite Hfirst in Hrun. injection Hrun as _ <-. cbn [snd calls].
  apply (Outcomes_events _ _ _ _ _ _ Hrel).
Qed.

Lemma factory_is_called_in_descriptor_order_witness :
  exists evs,
    calls (snd (snd (get_tools demo_rt (demo_self, demo_world ghost_servers))))
      = (calls (demo_world ghost_servers) ++ evs)%list /\
    built evs = heap (demo_world ghost_servers) !!! servers demo_self /\
    Forall (fun t' => t' = timeout_s demo_self) (timeouts evs).
Proof.
  apply (factory_is_called_in_descriptor_order demo_rt demo_self
           (demo_world ghost_servers) 4%positive
           (snd (get_tools demo_rt (demo_self, demo_world ghost_servers))));
    vm_compute; reflexivity.
Defined.

(** ** Any mix of outcomes *)

Lemma Outcomes_names rt t h cfgs outs h' :
  Outcomes rt t h cfgs outs h' -> map fst outs = map name_of cfgs.
Proof. induction 1; cbn; [ reflexivity | ]. f_equal. assumption. Qed.

(** X13. Whatever number of descriptors fail, a first [get_tools] over
    mappings returns, in descriptor order, the handles of exactly the
    sources that loaded, and the cache holds the same elements in
    another list; the outcomes carry the names of the descriptors in
    list order, [<unnamed>] standing for a missing name. *)
Theorem get_tools_merges_whatever_loaded rt self w outs h' :
  _loaded self = false ->
  outcomes rt (timeout_s self) (calls w) (heap w !!! servers self) = Some (outs, h') ->
  exists r s1,
    get_tools rt (self, w) = (Ok r, s1) /\
    heap (snd s1) !! r
      = Some (concat (map (fun no => outcome_tools (snd no))
                          (List.filter (fun no => negb (failed (snd no))) outs))) /\
    heap (snd s1) !! _tools (fst s1) = heap (snd s1) !! r /\
    r <> _tools (fst s1) /\
    map fst outs = map name_of (heap w !!! servers self) /\
    calls (snd s1) = h'.
Proof.
  intros Hl Houts.
  pose proof (outcomes_sound _ _ _ _ _ _ Houts) as Hrel.
  eexists _, _. split; [ apply (get_tools_first rt self w outs h' Hl Hrel) | ].
  cbn [fst snd heap calls loaded_at _tools].
  assert (Hne : fresh (dom (<[fresh (dom (heap w)) := merged outs]> (heap w)))
                <> fresh (dom (heap w)))
    by (apply fresh_ne; rewrite lookup_insert_eq; eauto).
  rewrite lookup_insert_eq, (lookup_insert_ne _ _ _ _ Hne), lookup_insert_eq.
  assert (Hmerged : merged outs
            = concat (map (fun no => outcome_tools (snd no))
                          (List.filter (fun no => negb (failed (snd no))) outs))).
  { unfold merged, failed. clear. induction outs as [ | [name o] outs IH]; [ reflexivity | ].
    cbn [map concat List.filter snd]. destruct o; cbn; by rewrite IH. }
  rewrite <- Hmerged. split_and!; auto.
  apply (Outcomes_names _ _ _ _ _ _ Hrel).
Qed.

Lemma get_tools_merges_whatever_loaded_witness :
  exists r s1,
    get_tools demo_rt (demo_self, demo_world mixed_servers) = (Ok r, s1) /\
    heap (snd s1) !! r
      = Some (concat (map (fun no => outcome_tools (snd no))
                          (List.filter (fun no => negb (failed (snd no))) mixed_outs))) /\
    heap (snd s1) !! _tools (fst s1) = heap (snd s1) !! r /\
    r <> _tools (fst s1) /\
    map fst mixed_outs = map name_of (heap (demo_world mixed_servers) !!! servers demo_self) /\
    calls (snd s1) = mixed_calls.
Proof.
  apply (get_tools_merges_whatever_loaded demo_rt demo_self (demo_world mixed_servers)
           mixed_outs mixed_calls); vm_compute; reflexivity.
Defined.

(** ** The placeholder factory *)

Lemma outcomes_all_unbuilt rt t e cfgs :
  (forall h cfg, _build_toolset rt h cfg = Raise e) ->
  forallb is_dict cfgs = true ->
  forall h,
    outcomes rt t h cfgs
    = Some (map (fun cfg => (name_of cfg, BuildFailed e)) cfgs,
            (h ++ map BuildToolset cfgs)%list).
Proof.
  intros Hfactory. induction cfgs as [ | cfg cfgs IH]; intros Hall h.
  - cbn. by rewrite app_nil_r.
  - cbn [forallb] in Hall. apply andb_prop in Hall as [Hcfg Hall].
    cbn [outcomes]. rewrite Hcfg. unfold attempt. rewrite Hfactory.
    rewrite (IH Hall). cbn [map]. by rewrite <- app_assoc.
Qed.

(** X14. With a [_build_toolset] that raises [NotImplementedError], as
    the placeholder in the source does, a first [get_tools] over any
    list of mappings returns an empty list and marks the connector
    loaded: the factory is called once per descriptor, no tool listing
    is ever awaited, and every descriptor is logged and summarised as
    an unexpected [NotImplementedError]. *)
Theorem placeholder_factory_skips_every_server rt self w :
  (forall h cfg, _build_toolset rt h cfg = Raise (NotImplementedError EmptyString)) ->
  _loaded self = false ->
  forallb is_dict (heap w !!! servers self) = true ->
  exists r s1,
    get_tools rt (self, w) = (Ok r, s1) /\
    heap (snd s1) !! r = Some [] /\
    _loaded (fst s1) = true /\
    calls (snd s1) = (calls w ++ map BuildToolset (heap w !!! servers self))%list /\
    log (snd s1)
    = (log w
       ++ map (fun cfg => failure_log (name_of cfg) (timeout_s self)
                            (NotImplementedError EmptyString))
              (heap w !!! servers self)
       ++ summary (map (fun cfg => py_str rt (name_of cfg)
                                   +:+ ": unexpected error (NotImplementedError: )")
                       (heap w !!! servers self)))%list.
Proof.
  intros Hfactory Hl Hall.
  pose proof (outcomes_all_unbuilt rt (timeout_s self) _ _ Hfactory Hall (calls w)) as Houts.
  pose proof (outcomes_sound _ _ _ _ _ _ Houts) as Hrel.
  eexists _, _. split; [ apply (get_tools_first rt self w _ _ Hl Hrel) | ].
  cbn [fst snd heap calls log loaded_at _loaded]. rewrite lookup_insert_eq.
  generalize (heap w !!! servers self). intros cfgs.
  assert (Hm : merged (map (fun cfg => (name_of cfg, BuildFailed (NotImplementedError EmptyString)))
                           cfgs) = []).
  { clear. unfold merged. induction cfgs; cbn; auto. }
  assert (Hr : reasons rt (timeout_s self)
                 (map (fun cfg => (name_of cfg, BuildFailed (NotImplementedError EmptyString)))
                      cfgs)
               = map (fun cfg => py_str rt (name_of cfg)
                                 +:+ ": unexpected error (NotImplementedError: )") cfgs).
  { clear. unfold reasons. induction cfgs as [ | cfg cfgs IH]; cbn; [ reflexivity | ].
    f_equal. exact IH. }
  rewrite Hm, Hr, map_map. split_and!; reflexivity.
Qed.

Lemma placeholder_factory_skips_every_server_witness :
  exists r s1,
    get_tools shipped_rt (demo_self, demo_world mixed_servers) = (Ok r, s1) /\
    heap (snd s1) !! r = Some [] /\
    _loaded (fst s1) = true /\
    calls (snd s1)
    = (calls (demo_world mixed_servers)
       ++ map BuildToolset (heap (demo_world mixed_servers) !!! servers demo_self))%list /\
    log (snd s1)
    = (log (demo_world mixed_servers)
       ++ map (fun cfg => failure_log (name_of cfg) (timeout_s demo_self)
                            (NotImplementedError EmptyString))
              (heap (demo_world mixed_servers) !!! servers demo_self)
       ++ summary (map (fun cfg => py_str shipped_rt (name_of cfg)
                                   +:+ ": unexpected error (NotImplementedError: )")
                       (heap (demo_world mixed_servers) !!! servers demo_self)))%list.
Proof.
  apply (placeholder_factory_skips_every_server shipped_rt demo_self
           (demo_world mixed_servers)); reflexivity.
Defined.

(** ** Results of successive calls *)

Lemma get_tools_returns_live_list rt self w r s1 :
  is_Some (heap w !! _tools self) ->
  get_tools rt (self, w) = (Ok r, s1) ->
  exists items,
    _loaded (fst s1) = true /\ heap (snd s1) !! r = Some items /\
    heap (snd s1) !! _tools (fst s1) = Some items.
Proof.
  intros [cache Hcache] Hrun. destruct (_loaded self) eqn:Hl.
  - destruct (cached_get_tools_copy rt (self, w) cache Hl Hcache)
      as (r' & s' & Hrun' & Hself & _ & Hr & Hc).
    rewrite Hrun' in Hrun. injection Hrun as <- <-.
    exists cache. rewrite Hself. cbn [fst] in *. auto.
  - destruct (first_get_tools_copy rt self w r s1 Hl Hrun) as (items & H1 & _ & H2 & H3).
    eauto.
Qed.

(** X15. Two successive calls of [get_tools] return two different list
    objects with the same elements; the second call leaves the list
    returned by the first as it is, so a caller may keep and change
    either without touching the other. *)
Theorem successive_results_are_distinct_lists rt self w r1 s1 r2 s2 :
  is_Some (heap w !! _tools self) ->
  get_tools rt (self, w) = (Ok r1, s1) ->
  get_tools rt s1 = (Ok r2, s2) ->
  r1 <> r2 /\
  heap (snd s2) !! r1 = heap (snd s1) !! r1 /\
  heap (snd s2) !! r2 = heap (snd s1) !! r1.
Proof.
  intros Hlive Hrun1 Hrun2.
  destruct (get_tools_returns_live_list rt self w r1 s1 Hlive Hrun1)
    as (items & Hl1 & Hr1 & Hc1).
  destruct s1 as [self1 w1]. cbn [fst snd] in *.
  rewrite (get_tools_cached rt self1 w1 Hl1) in Hrun2. injection Hrun2 as <- <-.
  assert (Hne : fresh (dom (heap w1)) <> r1) by (apply fresh_ne; eauto).
  cbn. rewrite lookup_insert_eq, (lookup_insert_ne _ _ _ _ Hne), Hr1.
  split_and!; auto.
  by rewrite (lookup_total_correct _ _ _ Hc1).
Qed.

Lemma successive_results_are_distinct_lists_witness :
  let s1 := snd (get_tools demo_rt (demo_self, demo_world mixed_servers)) in
  let s2 := snd (get_tools demo_rt s1) in
  4%positive <> 5%positive /\
  heap (snd s2) !! 4%positive = heap (snd s1) !! 4%positive /\
  heap (snd s2) !! 5%positive = heap (snd s1) !! 4%positive.
Proof.
  apply (successive_results_are_distinct_lists demo_rt demo_self
           (demo_world mixed_servers) 4%positive
           (snd (get_tools demo_rt (demo_self, demo_world mixed_servers)))
           5%positive
           (snd (get_tools demo_rt
                   (snd (get_tools demo_rt (demo_self, demo_world mixed_servers)))))).
  - vm_compute. eauto.
  - vm_compute. reflexivity.
  - vm_compute. reflexivity.
Defined.

(** ** A descriptor that is not a mapping *)

Lemma get_tools_escapes rt self w pre v post :
  _loaded self = false ->
  heap w !!! servers self = (pre ++ v :: post)%list ->
  forallb is_dict pre = true ->
  is_dict v = false ->
  exists e w',
    get_name v = Raise e /\
    get_tools rt (self, w) = (Raise e, (self, w')) /\
    heap w' !!! servers self = heap w !!! servers self /\
    builds (calls w') = builds (calls w) + length pre.
Proof.
  intros Hl Hcfgs Hpre Hv.
  destruct (outcomes_mappings rt (timeout_s self) pre Hpre (calls w)) as [[outs h1] Houts].
  destruct (load_all_tools_escapes rt self w pre v post outs h1 Hl Hcfgs Hv Houts)
    as (e & w' & Hname & Hrun & Hcalls & Hsame).
  exists e, w'. split_and!; auto.
  - unfold get_tools, mbind, M_bind. by rewrite Hrun.
  - rewrite Hcalls.
    by destruct (Outcomes_calls _ _ _ _ _ _ (outcomes_sound _ _ _ _ _ _ Houts)).
Qed.

(** X16. A descriptor list that holds an entry [v] that is not a
    mapping, after mappings [pre], makes every call of [get_tools]
    raise the [AttributeError] of [v.get]: the connector never becomes
    loaded, and each call first repeats the factory calls for the
    descriptors before [v]. *)
Theorem non_mapping_descriptor_fails_every_call rt self pre v post n :
  forall w,
    _loaded self = false ->
    heap w !!! servers self = (pre ++ v :: post)%list ->
    forallb is_dict pre = true ->
    is_dict v = false ->
    exists s',
      get_tools rt (later_calls rt n (self, w))
        = (Raise (AttributeError ("'" +:+ type_name v +:+ "' object has no attribute 'get'")),
           s') /\
      fst s' = self /\
      builds (calls (snd s')) = builds (calls w) + S n * length pre.
Proof.
  induction n as [ | n IH]; intros w Hl Hcfgs Hpre Hv;
    destruct (get_tools_escapes rt self w pre v post Hl Hcfgs Hpre Hv)
      as (e & w' & Hname & Hrun & Hsame & Hbuilds);
    assert (e = AttributeError ("'" +:+ type_name v +:+ "' object has no attribute 'get'"))
      as -> by (destruct v; try discriminate Hv; injection Hname as <-; reflexivity).
  - cbn [later_calls]. exists (self, w'). split_and!; auto. cbn [fst snd]. lia.
  - cbn [later_calls]. rewrite Hrun. cbn [snd].
    destruct (IH w' Hl (eq_trans Hsame Hcfgs) Hpre Hv) as (s' & Hrun' & Hself & Hb).
    exists s'. split_and!; auto. rewrite Hb, Hbuilds. lia.
Qed.

Lemma non_mapping_descriptor_fails_every_call_witness :
  exists s',
    get_tools demo_rt (later_calls demo_rt 2 (demo_self, demo_world malformed_servers))
      = (Raise (AttributeError ("'" +:+ type_name (PStr "beta")
                                +:+ "' object has no attribute 'get'")),
         s') /\
    fst s' = demo_self /\
    builds (calls (snd s'))
      = builds (calls (demo_world malformed_servers)) + 3 * length [server "alpha"].
Proof.
  apply (non_mapping_descriptor_fails_every_call demo_rt demo_self
           [server "alpha"] (PStr "beta") [server "gamma"] 2
           (demo_world malformed_servers)); reflexivity.
Defined.

(** ** The log of a pass *)

Lemma summary_length failures :
  length (summary failures) = if decide (failures = []) then 0 else 1.
Proof. destruct failures; reflexivity. Qed.

Lemma reasons_nil_iff rt t outs :
  reasons rt t outs = [] <-> existsb (fun no => failed (snd no)) outs = false.
Proof.
  unfold reasons, reason_of, failed.
  induction outs as [ | [name o] outs IH]; cbn [map concat existsb snd fst]; [ tauto | ].
  destruct (outcome_error o); cbn; [ split; discriminate | exact IH ].
Qed.

(** X17. A first [get_tools] that returns has appended to the log one
    record per descriptor, in descriptor order, and after them one
    summary record exactly when some descriptor was skipped; when none
    was, every new record is at level INFO. *)
Theorem log_grows_by_one_record_per_descriptor rt self w r s1 :
  _loaded self = false ->
  get_tools rt (self, w) = (Ok r, s1) ->
  exists recs outs h',
    outcomes rt (timeout_s self) (calls w) (heap w !!! servers self) = Some (outs, h') /\
    log (snd s1) = (log w ++ recs)%list /\
    length recs
      = length (heap w !!! servers self)
        + (if existsb (fun no => failed (snd no)) outs then 1 else 0) /\
    (existsb (fun no => failed (snd no)) outs = false ->
     Forall (fun rec => level rec = INFO) recs).
Proof.
  intros Hl Hrun.
  destruct (get_tools_first_inv rt self w r s1 Hl Hrun) as (outs & h' & Houts).
  pose proof (outcomes_sound _ _ _ _ _ _ Houts) as Hrel.
  pose proof (get_tools_first rt self w outs h' Hl Hrel) as Hfirst. cbv zeta in Hfirst.
  rewrite Hfirst in Hrun. injection Hrun as _ <-. cbn [snd log].
  eexists _, outs, h'. split; [ exact Houts | ]. split; [ reflexivity | ].
  rewrite length_app, length_map, (Outcomes_length _ _ _ _ _ _ Hrel), summary_length.
  pose proof (reasons_nil_iff rt (timeout_s self) outs) as Hiff.
  split.
  - destruct (existsb (fun no => failed (snd no)) outs);
      case_decide as Hnil; try reflexivity.
    + apply Hiff in Hnil. discriminate Hnil.
    + exfalso. apply Hnil, Hiff. reflexivity.
  - intros Hnone. apply Hiff in Hnone as Hnil. rewrite Hnil, app_nil_r.
    clear -Hnone. unfold failed in Hnone.
    induction outs as [ | [name o] outs IH]; cbn [map]; constructor.
    + cbn in Hnone. destruct o; try discriminate Hnone; reflexivity.
    + apply IH. cbn in Hnone. destruct (outcome_error o); [ discriminate | exact Hnone ].
Qed.

Lemma log_grows_by_one_record_per_descriptor_witness :
  exists recs outs h',
    outcomes demo_rt (timeout_s demo_self) (calls (demo_world mixed_servers))
      (heap (demo_world mixed_servers) !!! servers demo_self) = Some (outs, h') /\
    log (snd (snd (get_tools demo_rt (demo_self, demo_world mixed_servers))))
      = (log (demo_world mixed_servers) ++ recs)%list /\
    length recs
      = length (heap (demo_world mixed_servers) !!! servers demo_self)
        + (if existsb (fun no => failed (snd no)) outs then 1 else 0) /\
    (existsb (fun no => failed (snd no)) outs = false ->
     Forall (fun rec => level rec = INFO) recs).
Proof.
  apply (log_grows_by_one_record_per_descriptor demo_rt demo_self
           (demo_world mixed_servers) 4%positive
           (snd (get_tools demo_rt (demo_self, demo_world mixed_servers))));
    vm_compute; reflexivity.
Defined.

(** ** The explicit list is kept, not copied *)

(** X18. The constructor keeps the caller's list object, not a copy, and
    the list is read at the first [get_tools], not at construction: if
    the caller gives the list the elements [cfgs'] after constructing
    the connector, the first call loads [cfgs']. Once loaded, the
    connector no longer looks at the list: after a further change of
    its elements, [get_tools] still returns the handles first loaded
    and calls nothing. *)
Theorem descriptors_are_read_at_the_first_call env rt l t w cfgs' outs h' cfgs'' :
  is_Some (heap w !! l) ->
  outcomes rt t (calls w) cfgs' = Some (outs, h') ->
  exists self w1 r s2 r3 s3,
    __init__ env (Some l) t w = (Ok self, w1) /\
    get_tools rt (self, store l cfgs' w1) = (Ok r, s2) /\
    heap (snd s2) !! r = Some (merged outs) /\
    get_tools rt (fst s2, store l cfgs'' (snd s2)) = (Ok r3, s3) /\
    heap (snd s3) !! r3 = Some (merged outs) /\
    calls (snd s3) = h'.
Proof.
  intros Hlive Houts.
  pose proof (outcomes_sound _ _ _ _ _ _ Houts) as Hrel.
  set (self := {| timeout_s := t; _tools := fresh (dom (heap w)); _loaded := false;
                  servers := l |}).
  set (w1 := store (fresh (dom (heap w))) [] w).
  assert (Hfirst := get_tools_first rt self (store l cfgs' w1) outs h' eq_refl).
  cbn [timeout_s self servers calls store w1 heap] in Hfirst.
  rewrite lookup_total_insert_eq in Hfirst. specialize (Hfirst Hrel). cbv zeta in Hfirst.
  set (H := <[l := cfgs']> (<[fresh (dom (heap w)) := []]> (heap w))) in *.
  set (a := fresh (dom H)) in *.
  set (r := fresh (dom (<[a := merged outs]> H))) in *.
  assert (Hla : l <> a) by (apply not_eq_sym, fresh_ne; unfold H; rewrite lookup_insert_eq; eauto).
  assert (Hra : r <> a) by (apply fresh_ne; rewrite lookup_insert_eq; eauto).
  eexists self, w1, r, _, _, _.
  split; [ reflexivity | ].
  split; [ exact Hfirst | ].
  cbn [fst snd heap]. split; [ apply lookup_insert_eq | ].
  split; [ apply get_tools_cached; reflexivity | ].
  cbn [fst snd heap calls store loaded_at _tools].
  rewrite lookup_insert_eq, lookup_total_insert_ne, lookup_total_insert_ne,
    lookup_total_insert_eq by done.
  auto.
Qed.

Lemma descriptors_are_read_at_the_first_call_witness :
  exists self w1 r s2 r3 s3,
    __init__ bare_env (Some 1%positive) ten_seconds (demo_world []) = (Ok self, w1) /\
    get_tools demo_rt (self, store 1%positive mixed_servers w1) = (Ok r, s2) /\
    heap (snd s2) !! r = Some (merged mixed_outs) /\
    get_tools demo_rt (fst s2, store 1%positive ghost_servers (snd s2)) = (Ok r3, s3) /\
    heap (snd s3) !! r3 = Some (merged mixed_outs) /\
    calls (snd s3) = mixed_calls.
Proof.
  apply (descriptors_are_read_at_the_first_call bare_env demo_rt 1%positive ten_seconds
           (demo_world []) mixed_servers mixed_outs mixed_calls ghost_servers).
  - vm_compute. eauto.
  - vm_compute. reflexivity.
Defined.

(** ** Witnesses of the equivalences *)

Lemma no_path_iff_nothing_set_and_nothing_there_witness :
  _default_servers_config_path bare_env = None <->
  unset_or_empty (getenv bare_env "MCP_SERVERS_PATH") = true /\
  unset_or_empty (getenv bare_env "MCP_CONFIG_PATH") = true /\
  forallb (fun q => negb (path_exists bare_env q)) (candidates (_repo_root bare_env)) = true.
Proof. apply (no_path_iff_nothing_set_and_nothing_there bare_env). Defined.

Lemma load_returns_iff_witness :
  _load_servers_from_file (file_env (PList [server "alpha"])) "/srv/app/mcp_servers.json"
    = Ok [server "alpha"] <->
  path_exists (file_env (PList [server "alpha"])) "/srv/app/mcp_servers.json" = true /\
  exists parse text data,
    config_parser (file_env (PList [server "alpha"])) "/srv/app/mcp_servers.json" = Ok parse /\
    read_text (file_env (PList [server "alpha"])) "/srv/app/mcp_servers.json" = Ok text /\
    parse text = Ok data /\
    (data = PList [server "alpha"] \/
     exists d, data = PDict d /\ selected_value d = PList [server "alpha"]).
Proof.
  apply (load_returns_iff (file_env (PList [server "alpha"])) "/srv/app/mcp_servers.json"
           [server "alpha"]).
Defined.

(** * Signals *)

(** ** A quiet toolkit behaves as its runtime *)

Lemma load_one_quiet tk a failures server_cfg s :
  Interruptible.quiet tk ->
  Interruptible.load_one tk a failures server_cfg s
  = Interruptible.lift (load_one (Interruptible.handled tk) a failures server_cfg) s.
Proof.
  intros [Hb Hl]. destruct s as [self w].
  unfold Interruptible.load_one, load_one, Interruptible.lift, Interruptible.try_except,
    try_except, mbind, Interruptible.MI_bind, M_bind, mret, Interruptible.MI_ret, M_ret,
    lift_res, Interruptible.in_world, in_world, Interruptible.call_build_toolset,
    call_build_toolset, Interruptible.call_wait_for_get_tools, call_wait_for_get_tools,
    get_self, list_extend, logger_info, emit, Interruptible.of_res.
  destruct (get_name server_cfg) as [name | e0]; [ | reflexivity ].
  cbn [fst snd calls]. rewrite Hb.
  destruct (_build_toolset (Interruptible.handled tk) (calls w) server_cfg) as [ts | e];
    [ | reflexivity ].
  cbn [fst snd calls timeout_s]. rewrite Hl.
  destruct (wait_for_get_tools (Interruptible.handled tk)
              (calls w ++ [BuildToolset server_cfg])%list ts (timeout_s self));
    reflexivity.
Qed.

Lemma lift_bind {S A B} (m : M S A) (k : A -> M S B) (s : S) :
  Interruptible.lift (m ≫= k) s
  = Interruptible.MI_bind _ _ (fun a => Interruptible.lift (k a)) (Interruptible.lift m) s.
Proof.
  unfold Interruptible.lift, mbind, Interruptible.MI_bind, M_bind.
  destruct (m s) as [[a | e] s']; reflexivity.
Qed.

Lemma load_loop_quiet tk a cfgs :
  Interruptible.quiet tk ->
  forall failures s,
    Interruptible.load_loop tk a failures cfgs s
    = Interruptible.lift (load_loop (Interruptible.handled tk) a failures cfgs) s.
Proof.
  intros Hq. induction cfgs as [ | server_cfg cfgs IH]; intros failures s.
  - reflexivity.
  - cbn [Interruptible.load_loop load_loop]. rewrite lift_bind.
    unfold mbind, Interruptible.MI_bind. rewrite (load_one_quiet _ _ _ _ _ Hq).
    destruct (Interruptible.lift (load_one (Interruptible.handled tk) a failures server_cfg) s)
      as [[f | e | sg] s']; auto.
Qed.

Lemma load_all_tools_quiet tk s :
  Interruptible.quiet tk ->
  Interruptible._load_all_tools tk s
  = Interruptible.lift (_load_all_tools (Interruptible.handled tk)) s.
Proof.
  intros Hq. destruct s as [self w].
  unfold Interruptible._load_all_tools, _load_all_tools, mbind, Interruptible.MI_bind,
    M_bind, Interruptible.in_world, in_world, alloc, read_list, get_self,
    Interruptible.lift.
  cbn [fst snd heap calls log Interruptible.of_res].
  destruct (_loaded self); [ reflexivity | ].
  cbn [fst snd heap calls log Interruptible.of_res].
  rewrite (load_loop_quiet _ _ _ Hq). unfold Interruptible.lift.
  match goal with
  | |- context [load_loop ?rt ?a ?f ?cfgs ?s0] =>
      destruct (load_loop rt a f cfgs s0) as [[failures | e] [self1 w1]]
  end; cbn [Interruptible.of_res]; [ | reflexivity ].
  unfold set_tools, set_loaded, mret, Interruptible.MI_ret, M_ret, logger_warning, emit.
  destruct failures; reflexivity.
Qed.

Lemma get_tools_quiet tk s :
  Interruptible.quiet tk ->
  Interruptible.get_tools tk s = Interruptible.lift (get_tools (Interruptible.handled tk)) s.
Proof.
  intros Hq. unfold Interruptible.get_tools, get_tools. rewrite lift_bind.
  unfold mbind at 1. unfold Interruptible.MI_bind.
  rewrite (load_all_tools_quiet _ _ Hq).
  destruct (Interruptible.lift (_load_all_tools (Interruptible.handled tk)) s)
    as [[[] | e | sg] [self1 w1]]; [ | reflexivity | reflexivity ].
  unfold mbind, Interruptible.MI_bind, M_bind, Interruptible.lift, Interruptible.in_world,
    in_world, get_self, read_list, alloc.
  reflexivity.
Qed.

(** ** What the handlers catch, and what they let pass *)

(** C9, as the code has it. Over a descriptor list that holds only
    mappings, no instance of [Exception] that per-descriptor
    processing raises, at the construction of the toolset or from the
    list-tools call, leaves [get_tools]: when no call of the toolkit
    ends with a signal outside [Exception], [get_tools] returns and the
    connector is loaded; on a first pass each failed descriptor has
    become one reason and one log record, and the reasons are reported
    once in the closing summary. *)
Theorem handled_exceptions_never_escape tk self w :
  Interruptible.quiet tk ->
  forallb is_dict (heap w !!! servers self) = true ->
  exists r s',
    Interruptible.get_tools tk (self, w) = (Interruptible.Returns r, s') /\
    _loaded (fst s') = true /\
    (_loaded self = false ->
     exists outs h',
       outcomes (Interruptible.handled tk) (timeout_s self) (calls w)
                (heap w !!! servers self) = Some (outs, h') /\
       length (reasons (Interruptible.handled tk) (timeout_s self) outs)
         = length (List.filter (fun no => failed (snd no)) outs) /\
       log (snd s')
         = (log w ++ map (record_of (timeout_s self)) outs
            ++ summary (reasons (Interruptible.handled tk) (timeout_s self) outs))%list).
Proof.
  intros Hq Hall.
  destruct (handled_failures_become_skips (Interruptible.handled tk) self w Hall)
    as (r & s' & Hrun & Hloaded & Hfirst).
  exists r, s'. split; [ | auto ].
  rewrite (get_tools_quiet _ _ Hq). unfold Interruptible.lift. by rewrite Hrun.
Qed.

Lemma handled_exceptions_never_escape_witness :
  exists r s',
    Interruptible.get_tools (of_runtime demo_rt)
      (demo_self, demo_world [server "ghost"; server "down"; server "odd"; PDict []])
      = (Interruptible.Returns r, s') /\
    _loaded (fst s') = true /\
    (_loaded demo_self = false ->
     exists outs h',
       outcomes (Interruptible.handled (of_runtime demo_rt)) (timeout_s demo_self)
         (calls (demo_world [server "ghost"; server "down"; server "odd"; PDict []]))
         (heap (demo_world [server "ghost"; server "down"; server "odd"; PDict []])
            !!! servers demo_self) = Some (outs, h') /\
       length (reasons (Interruptible.handled (of_runtime demo_rt)) (timeout_s demo_self) outs)
         = length (List.filter (fun no => failed (snd no)) outs) /\
       log (snd s')
         = (log (demo_world [server "ghost"; server "down"; server "odd"; PDict []])
            ++ map (record_of (timeout_s demo_self)) outs
            ++ summary (reasons (Interruptible.handled (of_runtime demo_rt))
                          (timeout_s demo_self) outs))%list).
Proof.
  apply (handled_exceptions_never_escape (of_runtime demo_rt) demo_self
           (demo_world [server "ghost"; server "down"; server "odd"; PDict []])).
  - split; intros; reflexivity.
  - vm_compute. reflexivity.
Defined.

(** C9, as stated, fails: the task is cancelled while [wait_for] awaits
    the tools of the second of three mappings; [CancelledError] is not
    an [Exception], no handler catches it, and [get_tools] does not
    return. *)
Lemma cancellation_escapes_get_tools :
  ~ Interruptible.mappings_always_complete cancelled_tk demo_self (demo_world mixed_servers).
Proof.
  intros Hclaim. destruct (Hclaim eq_refl) as (r & s' & Hrun).
  vm_compute in Hrun. discriminate Hrun.
Qed.

(** The cancelled call ends [get_tools] with the signal, after the
    first server was asked, and the connector is as before: not
    loaded, its cache untouched. *)
Example cancelled_pass_leaves_connector_unloaded :
  exists w',
    Interruptible.get_tools cancelled_tk (demo_self, demo_world mixed_servers)
      = (Interruptible.Propagates Interruptible.CancelledError, (demo_self, w')) /\
    heap w' !! _tools demo_self = Some [] /\
    calls w'
      = [BuildToolset (server "alpha"); GetTools (PObj "MCPToolset" 0) ten_seconds;
         BuildToolset (server "slow"); GetTools (PObj "MCPToolset" 2) ten_seconds].
Proof. eexists. vm_compute. split_and!; reflexivity. Qed.
